(** * LB particle coupling (ESPResSo, waLBerla bridge)

    A shallow embedding of [src/core/grid_based_algorithms/lb_particle_coupling.cpp]
    and of the parts of its collaborators that the coupling code calls.

    - [double] arithmetic is kept behind the interface [DoubleOps]; the code is
      written once against the interface, and the instance [binary64] gives
      IEEE-754 double precision (round to nearest even) through [SpecFloat].
    - [uint64_t] is a [Z] kept in [0, 2^64) with the wrap-around written out.
    - Exceptions and dereferences of an empty optional are explicit outcomes.
    - Global variables ([lattice_switch], [lb_particle_coupling], [local_geo],
      [box_geo], the LB instance) are the fields of one record [Globals] that
      is passed around; writes to the fluid's force density are logged. *)

From Stdlib Require Import ZArith List Bool String Lia.
From Stdlib Require Import Floats.SpecFloat.
Import ListNotations.

Set Implicit Arguments.
Local Open Scope Z_scope.

(** ** The [double] interface *)

Class DoubleOps (D : Type) : Type := {
  dadd : D -> D -> D;
  dsub : D -> D -> D;
  dmul : D -> D -> D;
  ddiv : D -> D -> D;
  dopp : D -> D;
  (** [a < b] *)
  dltb : D -> D -> bool;
  (** [a <= b] *)
  dleb : D -> D -> bool;
  (** [double(i)] for an [int] [i] *)
  d_of_int : Z -> D;
  (** the literal [0.5] *)
  dhalf : D;
  (** [std::numeric_limits<double>::epsilon()] *)
  depsilon : D
}.

Section Scalars.
Context {D : Type} `{DoubleOps D}.

(** The value of [double{}] and of the literals [0.] and [0.0]. *)
Definition dzero : D := d_of_int 0.
(** [a > b] and [a >= b], as C++ defines them on [double]. *)
Definition dgtb (a b : D) : bool := dltb b a.
Definition dgeb (a b : D) : bool := dleb b a.
End Scalars.

(** ** [Utils::Vector<T, 3>] *)

Inductive Axis : Type := AX | AY | AZ.

Record Vector3 (T : Type) : Type := mkVec { vx : T; vy : T; vz : T }.

Definition vget {T} (a : Vector3 T) (i : Axis) : T :=
  match i with AX => vx a | AY => vy a | AZ => vz a end.

Definition vset {T} (a : Vector3 T) (i : Axis) (t : T) : Vector3 T :=
  match i with
  | AX => mkVec t (vy a) (vz a)
  | AY => mkVec (vx a) t (vz a)
  | AZ => mkVec (vx a) (vy a) t
  end.

Definition vmap {S T} (f : S -> T) (a : Vector3 S) : Vector3 T :=
  mkVec (f (vx a)) (f (vy a)) (f (vz a)).

Definition vzip {S T U} (f : S -> T -> U) (a : Vector3 S) (b : Vector3 T) : Vector3 U :=
  mkVec (f (vx a) (vx b)) (f (vy a) (vy b)) (f (vz a) (vz b)).

Definition vall (a : Vector3 bool) : bool := vx a && vy a && vz a.

(** [Utils::Vector3d] is [Vector3 D] for the type [D] of doubles. *)
Abbreviation Vector3d := Vector3 (only parsing).

Section Vectors.
Context {D : Type} `{DoubleOps D}.

(** [Utils::Vector3d{}] *)
Definition vzero : Vector3d D := mkVec dzero dzero dzero.
(** [Utils::Vector3d::broadcast(s)] *)
Definition broadcast (s : D) : Vector3d D := mkVec s s s.
(** [a + b], [a - b] *)
Definition vadd (a b : Vector3d D) : Vector3d D := vzip dadd a b.
Definition vsub (a b : Vector3d D) : Vector3d D := vzip dsub a b.
(** [s * a] and [a * s] *)
Definition smul (s : D) (a : Vector3d D) : Vector3d D := vmap (dmul s) a.
Definition vmuls (a : Vector3d D) (s : D) : Vector3d D := vmap (fun t => dmul t s) a.
(** [Utils::hadamard_product(a, b)] *)
Definition hadamard_product (a b : Vector3d D) : Vector3d D := vzip dmul a b.

(** Modelled from the spec: the comparison operators of [Utils::Vector]
    ([utils/Vector.hpp] is not among the sources).  Section 4.1 reads
    [pos >= lower and pos < upper] component-wise: each operator holds when
    it holds for every component. *)
Definition vgeb (a b : Vector3d D) : bool := vall (vzip dgeb a b).
Definition vltb (a b : Vector3d D) : bool := vall (vzip dltb a b).
End Vectors.

(** ** Box geometry, local box and the LB instance *)

Inductive BoxType : Type := CUBOID | LEES_EDWARDS.

Section Geometry.
Context {D : Type} `{DoubleOps D}.

(** Modelled from the spec: [LeesEdwardsBC] ([LeesEdwardsBC.hpp] is not among
    the sources).  Section 6 lists its content: shear plane normal axis,
    shear direction axis, current position offset. *)
Record LeesEdwardsBC : Type := {
  pos_offset : D;
  shear_direction : Axis;
  shear_plane_normal : Axis
}.

Record BoxGeometry : Type := {
  length : Vector3d D;
  type : BoxType;
  lees_edwards_bc : LeesEdwardsBC
}.

Record LocalBox : Type := {
  my_left : Vector3d D;
  my_right : Vector3d D
}.

(** What the coupling code reads from the LB instance ([LB::get_agrid],
    [LB::get_lattice_speed], [LB::get_kT],
    [lb_lbinterpolation_get_interpolated_velocity]). *)
Record LBFluid : Type := {
  get_agrid : D;
  get_lattice_speed : D;
  get_kT : D;
  get_interpolated_velocity : Vector3d D -> Vector3d D
}.
End Geometry.

Arguments LeesEdwardsBC D : clear implicits.
Arguments BoxGeometry D : clear implicits.
Arguments LocalBox D : clear implicits.
Arguments LBFluid D : clear implicits.

(** ** Outcomes of a call *)

Inductive exception : Type := runtime_error (what : string).

(** A call returns, throws, or runs into behaviour that C++ leaves undefined
    (here: [operator->] on an empty optional or on a null pointer). *)
Inductive result (A : Type) : Type :=
| Ok (a : A)
| Throw (e : exception)
| Undefined.

Arguments Throw {A} e.
Arguments Undefined {A}.

Definition bind {A B} (r : result A) (k : A -> result B) : result B :=
  match r with
  | Ok a => k a
  | Throw e => Throw e
  | Undefined => Undefined
  end.

Notation "x <- r ;; k" := (bind r (fun x => k))
  (at level 61, r at next level, right associativity).

(** How a procedure that works on state handed to it by reference ends. *)
Inductive completion : Type :=
| Normal
| Thrown (e : exception)
| UndefinedBehaviour.

(** ** [uint64_t] and the RNG counter *)

Definition uint64_modulus : Z := 2 ^ 64.
Definition to_uint64 (z : Z) : Z := z mod uint64_modulus.

(** Modelled from the spec: [Utils::Counter<uint64_t>] ([utils/Counter.hpp] is
    not among the sources).  Section 3: a 64-bit value that [increment] advances
    by one; [value] reads it. *)
Record Counter : Type := mkCounter { m_val : Z }.

Definition Counter_init (initial_value : Z) : Counter :=
  mkCounter (to_uint64 initial_value).
Definition value (c : Counter) : Z := m_val c.
Definition increment (c : Counter) : Counter :=
  mkCounter (to_uint64 (m_val c + 1)).

(** ** Particles and the coupling configuration *)

Inductive ActiveLB : Type := NONE | WALBERLA_LB.

Definition ActiveLB_eqb (a b : ActiveLB) : bool :=
  match a, b with
  | NONE, NONE | WALBERLA_LB, WALBERLA_LB => true
  | _, _ => false
  end.

Section Model.
Context {D : Type} `{DoubleOps D}.

Record ParticleParametersSwimming : Type := {
  swimming : bool;
  f_swim : D;
  v_swim : D;
  push_pull : Z;
  dipole_length : D
}.

(** The members of [Particle] that the coupling reads or writes.
    [calc_director] is computed from the orientation quaternion in
    [Particle.hpp], which is not among the sources; its value is a field. *)
Record Particle : Type := {
  id : Z;
  pos : Vector3d D;
  v : Vector3d D;
  force : Vector3d D;
  is_virtual : bool;
  is_ghost : bool;
  swim : ParticleParametersSwimming;
  calc_director : Vector3d D;
  mu_E : Vector3d D
}.

(** [p.force() += f] *)
Definition add_force (p : Particle) (f : Vector3d D) : Particle :=
  {| id := id p; pos := pos p; v := v p; force := vadd (force p) f;
     is_virtual := is_virtual p; is_ghost := is_ghost p; swim := swim p;
     calc_director := calc_director p; mu_E := mu_E p |}.

(** [LB::ParticleCouplingConfig] *)
Record ParticleCouplingConfig : Type := {
  gamma : D;
  couple_to_md : bool;
  rng_counter_coupling : option Counter
}.

(** What the coupling asks of [::cell_structure]: [get_local_particle(id)]
    yields the particle stored on this node under [id] (a real one, or a
    ghost), or a null pointer.  The coupling reads only [is_ghost()] of the
    particle found, which the coupling never writes. *)
Record CellStructure : Type := {
  get_local_particle : Z -> option Particle
}.

(** The global variables and build options the translation unit reads.
    [ENGINE] and [LB_ELECTROHYDRODYNAMICS] stand for the preprocessor
    symbols; [noise_uniform counter seed key] stands for
    [Random::noise_uniform<RNGSalt::PARTICLES>(counter, seed, key)] of
    [random.hpp], and [noise_amplitude gamma kT time_step] for the
    prefactor that the constructor of [LB::ParticleCoupling] stores; neither
    is among the sources. *)
Record Globals : Type := {
  lattice_switch : ActiveLB;
  lb_particle_coupling : ParticleCouplingConfig;
  local_geo : LocalBox D;
  box_geo : BoxGeometry D;
  cell_structure : CellStructure;
  lb : LBFluid D;
  noise_uniform : Z -> Z -> Z -> Vector3d D;
  noise_amplitude : D -> D -> D -> D;
  ENGINE : bool;
  LB_ELECTROHYDRODYNAMICS : bool
}.

Definition set_lb_particle_coupling (g : Globals) (c : ParticleCouplingConfig) : Globals :=
  {| lattice_switch := lattice_switch g; lb_particle_coupling := c;
     local_geo := local_geo g; box_geo := box_geo g;
     cell_structure := cell_structure g; lb := lb g;
     noise_uniform := noise_uniform g; noise_amplitude := noise_amplitude g;
     ENGINE := ENGINE g;
     LB_ELECTROHYDRODYNAMICS := LB_ELECTROHYDRODYNAMICS g |}.

Definition set_rng_counter_coupling (g : Globals) (c : option Counter) : Globals :=
  set_lb_particle_coupling g
    {| gamma := gamma (lb_particle_coupling g);
       couple_to_md := couple_to_md (lb_particle_coupling g);
       rng_counter_coupling := c |}.

(** *** Gamma and the RNG counter *)

Definition lb_lbcoupling_set_gamma (g : Globals) (gamma' : D) : Globals :=
  set_lb_particle_coupling g
    {| gamma := gamma';
       couple_to_md := couple_to_md (lb_particle_coupling g);
       rng_counter_coupling := rng_counter_coupling (lb_particle_coupling g) |}.

Definition lb_lbcoupling_get_gamma (g : Globals) : D :=
  gamma (lb_particle_coupling g).

Definition lb_lbcoupling_is_seed_required (g : Globals) : bool :=
  if ActiveLB_eqb (lattice_switch g) WALBERLA_LB
  then match rng_counter_coupling (lb_particle_coupling g) with
       | Some _ => false
       | None => true
       end
  else false.

(** [rng_counter_coupling->value()]: the optional is dereferenced unchecked. *)
Definition lb_coupling_get_rng_state_cpu (g : Globals) : result Z :=
  match rng_counter_coupling (lb_particle_coupling g) with
  | Some c => Ok (value c)
  | None => Undefined
  end.

Definition lb_lbcoupling_get_rng_state (g : Globals) : result Z :=
  if ActiveLB_eqb (lattice_switch g) WALBERLA_LB
  then lb_coupling_get_rng_state_cpu g
  else Throw (runtime_error "No LB active").

Definition lb_lbcoupling_set_rng_state (g : Globals) (counter : Z) : result Globals :=
  if ActiveLB_eqb (lattice_switch g) WALBERLA_LB
  then Ok (set_rng_counter_coupling g (Some (Counter_init counter)))
  else Throw (runtime_error "No LB active").

Definition lb_lbcoupling_propagate (g : Globals) : result Globals :=
  if negb (ActiveLB_eqb (lattice_switch g) NONE) then
    if dgtb (get_kT (lb g)) dzero then
      if ActiveLB_eqb (lattice_switch g) WALBERLA_LB then
        match rng_counter_coupling (lb_particle_coupling g) with
        | Some c => Ok (set_rng_counter_coupling g (Some (increment c)))
        | None => Undefined
        end
      else Ok g
    else Ok g
  else Ok g.

(** *** Forces on the fluid *)

(** The calls [lb_lbinterpolation_add_force_density(pos, delta_j)] made so
    far, oldest first. *)
Definition ForceDensity : Type := list (Vector3d D * Vector3d D).

Definition add_md_force (g : Globals) (pos force : Vector3d D) (time_step : D)
    (fluid : ForceDensity) : ForceDensity :=
  let delta_j := smul (dopp (ddiv time_step (get_lattice_speed (lb g)))) force in
  fluid ++ [(pos, delta_j)].

Definition lb_particle_coupling_drift_vel_offset (g : Globals) (p : Particle) : Vector3d D :=
  let vel_offset := vzero in
  let vel_offset :=
    if ENGINE g && swimming (swim p)
    then vadd vel_offset (smul (v_swim (swim p)) (calc_director p))
    else vel_offset in
  let vel_offset :=
    if LB_ELECTROHYDRODYNAMICS g then vadd vel_offset (mu_E p) else vel_offset in
  vel_offset.

Definition lb_drag_force (g : Globals) (p : Particle)
    (shifted_pos vel_offset : Vector3d D) : Vector3d D :=
  let interpolated_u :=
    vmuls (get_interpolated_velocity (lb g) shifted_pos) (get_lattice_speed (lb g)) in
  let v_drift := vadd interpolated_u vel_offset in
  smul (dopp (lb_lbcoupling_get_gamma g)) (vsub (v p) v_drift).

(** *** Local domain and periodic images *)

Definition in_local_domain (g : Globals) (pos : Vector3d D) (halo : D) : bool :=
  let halo_vec := broadcast halo in
  let lower_corner := vsub (my_left (local_geo g)) halo_vec in
  let upper_corner := vadd (my_right (local_geo g)) halo_vec in
  vgeb pos lower_corner && vltb pos upper_corner.

Definition in_local_halo (g : Globals) (pos : Vector3d D) : bool :=
  let halo := dmul dhalf (get_agrid (lb g)) in
  in_local_domain g pos halo.

(** The body of the innermost loop of [positions_in_halo] up to the test:
    the image of [pos] for the shift [(i, j, k)]. *)
Definition shifted_position (g : Globals) (pos : Vector3d D) (box : BoxGeometry D)
    (i j k : Z) : Vector3d D :=
  let shift := mkVec (d_of_int i) (d_of_int j) (d_of_int k) in
  let pos_shifted := vadd pos (hadamard_product (length box) shift) in
  match type (box_geo g) with
  | LEES_EDWARDS =>
      let le := lees_edwards_bc (box_geo g) in
      let normal_shift := vget (vsub pos_shifted pos) (shear_plane_normal le) in
      let pos_shifted :=
        if dgtb normal_shift depsilon
        then vset pos_shifted (shear_direction le)
               (dadd (vget pos_shifted (shear_direction le)) (pos_offset le))
        else pos_shifted in
      let pos_shifted :=
        if dltb normal_shift (dopp depsilon)
        then vset pos_shifted (shear_direction le)
               (dsub (vget pos_shifted (shear_direction le)) (pos_offset le))
        else pos_shifted in
      pos_shifted
  | CUBOID => pos_shifted
  end.

(** The range [{-1, 0, 1}] of each of the three loops. *)
Definition shift_range : list Z := [-1; 0; 1].

Definition positions_in_halo (g : Globals) (pos : Vector3d D) (box : BoxGeometry D)
    : list (Vector3d D) :=
  fold_left (fun res i =>
    fold_left (fun res j =>
      fold_left (fun res k =>
        let pos_shifted := shifted_position g pos box i j k in
        if in_local_halo g pos_shifted then res ++ [pos_shifted] else res)
        shift_range res)
      shift_range res)
    shift_range [].

(** *** Swimmers *)

Definition add_swimmer_force (g : Globals) (p : Particle) (time_step : D)
    (fluid : ForceDensity) : ForceDensity :=
  if swimming (swim p) then
    let magnitude := dipole_length (swim p) in
    let direction := d_of_int (push_pull (swim p)) in
    let director := calc_director p in
    let source_position := vadd (pos p) (smul (dmul direction magnitude) director) in
    let force := smul (f_swim (swim p)) director in
    fold_left (fun fluid pos => add_md_force g pos force time_step fluid)
      (positions_in_halo g source_position (box_geo g)) fluid
  else fluid.

(** *** [LB::ParticleCoupling] *)

Record ParticleCoupling : Type := {
  m_couple_virtual : bool;
  m_thermalized : bool;
  m_time_step : D;
  m_noise : D
}.

(** Modelled from the spec: the constructor
    [ParticleCoupling{couple_virtual, time_step}]
    ([lb_particle_coupling.hpp] is not among the sources).  Section 4.3:
    thermalization is active when the temperature is positive; section 4.4:
    the noise amplitude is precomputed from gamma, temperature and
    timestep. *)
Definition ParticleCoupling_init (g : Globals) (couple_virtual : bool) (time_step : D)
    : ParticleCoupling :=
  {| m_couple_virtual := couple_virtual;
     m_thermalized := dgtb (get_kT (lb g)) dzero;
     m_time_step := time_step;
     m_noise := noise_amplitude g (lb_lbcoupling_get_gamma g) (get_kT (lb g)) time_step |}.

Definition get_noise_term (pc : ParticleCoupling) (g : Globals) (pid : Z)
    : result (Vector3d D) :=
  if negb (m_thermalized pc) then Ok vzero
  else
    match rng_counter_coupling (lb_particle_coupling g) with
    | None =>
        Throw (runtime_error "Access to uninitialized LB particle coupling RNG counter")
    | Some rng_counter =>
        let counter := value rng_counter in
        Ok (smul (m_noise pc) (noise_uniform g counter 0 pid))
    end.

(** The first loop of [kernel]: the coupling force is computed at the first
    position of the list that is in the local halo, and is zero when there
    is none. *)
Fixpoint calc_coupling_force (pc : ParticleCoupling) (g : Globals) (p : Particle)
    (positions : list (Vector3d D)) : result (Vector3d D) :=
  match positions with
  | [] => Ok vzero
  | pos :: positions =>
      if in_local_halo g pos then
        let vel_offset := lb_particle_coupling_drift_vel_offset g p in
        let drag_force := lb_drag_force g p pos vel_offset in
        random_force <- get_noise_term pc g (id p) ;;
        Ok (vadd drag_force random_force)
      else calc_coupling_force pc g p positions
  end.

(** One round of the second loop of [kernel]. *)
Definition couple_position (pc : ParticleCoupling) (g : Globals)
    (coupling_force : Vector3d D) (st : Particle * ForceDensity) (pos : Vector3d D)
    : Particle * ForceDensity :=
  let p := if in_local_domain g pos dzero
           then add_force (fst st) coupling_force
           else fst st in
  (p, add_md_force g pos coupling_force (m_time_step pc) (snd st)).

Definition kernel (pc : ParticleCoupling) (g : Globals) (p : Particle)
    (fluid : ForceDensity) : completion * Particle * ForceDensity :=
  if is_virtual p && negb (m_couple_virtual pc) then (Normal, p, fluid)
  else
    match calc_coupling_force pc g p (positions_in_halo g (pos p) (box_geo g)) with
    | Throw e => (Thrown e, p, fluid)
    | Undefined => (UndefinedBehaviour, p, fluid)
    | Ok coupling_force =>
        let st := fold_left (couple_position pc g coupling_force)
                    (positions_in_halo g (pos p) (box_geo g)) (p, fluid) in
        let fluid := if ENGINE g
                     then add_swimmer_force g (fst st) (m_time_step pc) (snd st)
                     else snd st in
        (Normal, fst st, fluid)
    end.

(** *** [LB::CouplingBookkeeping] and [LB::couple_particles] *)

Definition is_ghost_for_local_particle (g : Globals) (p : Particle) : result bool :=
  match get_local_particle (cell_structure g) (id p) with
  | Some local => Ok (negb (is_ghost local))
  | None => Undefined
  end.

(** Modelled from the spec: [CouplingBookkeeping::should_be_coupled]
    ([lb_particle_coupling.hpp] is not among the sources).  Section 4.5: a
    particle takes part in the coupling pass iff it is not a ghost duplicate
    of a particle this rank already owns as real, which is what
    [is_ghost_for_local_particle] is consulted for. *)
Definition should_be_coupled (g : Globals) (p : Particle) : result bool :=
  if is_ghost p then
    duplicate <- is_ghost_for_local_particle g p ;;
    Ok (negb duplicate)
  else Ok true.

(** The loop over one particle range; the particles are updated in place. *)
Fixpoint couple_range (pc : ParticleCoupling) (g : Globals) (range : list Particle)
    (fluid : ForceDensity) : completion * list Particle * ForceDensity :=
  match range with
  | [] => (Normal, [], fluid)
  | p :: range =>
      match should_be_coupled g p with
      | Ok true =>
          match kernel pc g p fluid with
          | (Normal, p', fluid') =>
              match couple_range pc g range fluid' with
              | (c, range', fluid'') => (c, p' :: range', fluid'')
              end
          | (c, p', fluid') => (c, p' :: range, fluid')
          end
      | Ok false =>
          match couple_range pc g range fluid with
          | (c, range', fluid') => (c, p :: range', fluid')
          end
      | Throw e => (Thrown e, p :: range, fluid)
      | Undefined => (UndefinedBehaviour, p :: range, fluid)
      end
  end.

Definition couple_particles (g : Globals) (couple_virtual : bool)
    (real_particles ghost_particles : list Particle) (time_step : D)
    (fluid : ForceDensity)
    : completion * (list Particle * list Particle) * ForceDensity :=
  if ActiveLB_eqb (lattice_switch g) WALBERLA_LB then
    if couple_to_md (lb_particle_coupling g) then
      let coupling := ParticleCoupling_init g couple_virtual time_step in
      match couple_range coupling g real_particles fluid with
      | (Normal, real_particles', fluid') =>
          match couple_range coupling g ghost_particles fluid' with
          | (c, ghost_particles', fluid'') =>
              (c, (real_particles', ghost_particles'), fluid'')
          end
      | (c, real_particles', fluid') =>
          (c, (real_particles', ghost_particles), fluid')
      end
    else (Normal, (real_particles, ghost_particles), fluid)
  else (Normal, (real_particles, ghost_particles), fluid).
End Model.

Arguments CellStructure D : clear implicits.
Arguments ParticleCoupling D : clear implicits.
Arguments ParticleParametersSwimming D : clear implicits.
Arguments Particle D : clear implicits.
Arguments ParticleCouplingConfig D : clear implicits.
Arguments Globals D : clear implicits.
Arguments ForceDensity D : clear implicits.

(** ** IEEE-754 double precision *)

Definition double : Type := spec_float.

Definition prec : Z := 53.
Definition emax : Z := 1024.

(** The double nearest to the integer [z]. *)
Definition double_of_Z (z : Z) : double := binary_normalize prec emax z 0 false.

(** The double nearest to [m * 2^e]. *)
Definition double_of_bits (m e : Z) : double := binary_normalize prec emax m e false.

(** The double nearest to the fraction [n / d] of two integers that are
    doubles themselves: the value of a decimal literal such as [0.2]
    (= [2 / 10]), since division rounds correctly. *)
Definition literal (n d : Z) : double :=
  SFdiv prec emax (double_of_Z n) (double_of_Z d).

#[export] Instance binary64 : DoubleOps double := {
  dadd := SFadd prec emax;
  dsub := SFsub prec emax;
  dmul := SFmul prec emax;
  ddiv := SFdiv prec emax;
  dopp := SFopp;
  dltb := SFltb;
  dleb := SFleb;
  d_of_int := double_of_Z;
  dhalf := literal 1 2;
  depsilon := double_of_bits 1 (-52)
}.

(** [std::sqrt] and [Utils::Vector::norm], for the checks of the unit tests. *)
Definition dsqrt (x : double) : double := SFsqrt prec emax x.
Definition norm (a : Vector3d double) : double :=
  dsqrt (dadd (dadd (dmul (vx a) (vx a)) (dmul (vy a) (vy a))) (dmul (vz a) (vz a))).

(** ** The configuration of the unit tests

    [lb_particle_coupling_test.cpp] sets up one node whose local domain is the
    whole box of edge 8, with [agrid = 1], [tau = 0.01] and a fluid at rest. *)

Module UnitTest.
Definition agrid : double := double_of_Z 1.
Definition tau : double := literal 1 100.
Definition time_step : double := literal 1 100.
Definition box_dimensions : Vector3d double := broadcast (double_of_Z 8).

Definition cuboid_box : BoxGeometry double :=
  {| length := box_dimensions;
     type := CUBOID;
     lees_edwards_bc :=
       {| pos_offset := dzero; shear_direction := AX; shear_plane_normal := AY |} |}.

Definition whole_box : LocalBox double :=
  {| my_left := vzero; my_right := box_dimensions |}.

Definition fluid_at_rest (kT : double) : LBFluid double :=
  {| get_agrid := agrid;
     get_lattice_speed := ddiv agrid tau;
     get_kT := kT;
     get_interpolated_velocity := fun _ => vzero |}.

Definition no_particles : CellStructure double :=
  {| get_local_particle := fun _ => None |}.

(** A stand-in for the random number generator, which is not among the
    sources: the three variates depend on the counter and on the key. *)
Definition sample_noise (counter seed key : Z) : Vector3d double :=
  mkVec (double_of_bits (counter mod 7 - 3) (-3))
        (double_of_bits (key mod 5 - 2) (-3))
        (double_of_bits ((counter + key) mod 3 - 1) (-2)).

(** [lb_lbcoupling_set_gamma(0.2)] on the state that [setup_lb(kT)] leaves. *)
Definition globals (kT : double) (rng : option Counter) : Globals double :=
  {| lattice_switch := WALBERLA_LB;
     lb_particle_coupling :=
       {| gamma := literal 2 10; couple_to_md := true; rng_counter_coupling := rng |};
     local_geo := whole_box;
     box_geo := cuboid_box;
     cell_structure := no_particles;
     lb := fluid_at_rest kT;
     noise_uniform := sample_noise;
     noise_amplitude := fun gamma kT time_step => dmul gamma kT;
     ENGINE := true;
     LB_ELECTROHYDRODYNAMICS := true |}.

Definition not_swimming : ParticleParametersSwimming double :=
  {| swimming := false; f_swim := dzero; v_swim := dzero; push_pull := 0;
     dipole_length := dzero |}.

(** [Particle p{}] with an identity, a position and a velocity. *)
Definition particle (pid : Z) (position velocity : Vector3d double) : Particle double :=
  {| id := pid; pos := position; v := velocity; force := vzero;
     is_virtual := false; is_ghost := false; swim := not_swimming;
     calc_director := mkVec dzero dzero (double_of_Z 1); mu_E := vzero |}.

(** The particle, drift offset and expectation of the test case [drag_force]. *)
Definition drag_particle : Particle double :=
  particle 0 vzero (mkVec (literal (-5) 2) (literal 3 2) (double_of_Z 2)).
Definition drift_offset : Vector3d double :=
  mkVec (double_of_Z (-1)) (double_of_Z 1) (double_of_Z 1).
Definition expected_drag : Vector3d double :=
  mkVec (literal 3 10) (dopp (literal 1 10)) (dopp (literal 2 10)).

(** [tol = 6 * 100 * std::numeric_limits<double>::epsilon()] *)
Definition tol : double := dmul (double_of_Z (6 * 100)) depsilon.
End UnitTest.

(** ** The order of the periodic images

    Section 4.2 of the specification fixes the order in which the shifts are
    tried: x outermost, then y, then z innermost, each running over -1, 0, +1. *)

Definition shift_triples_of (xs ys zs : list Z) : list (Z * Z * Z) :=
  flat_map (fun i => flat_map (fun j => map (fun k => (i, j, k)) zs) ys) xs.

Definition shift_triples : list (Z * Z * Z) :=
  [ (-1, -1, -1); (-1, -1, 0); (-1, -1, 1);
    (-1,  0, -1); (-1,  0, 0); (-1,  0, 1);
    (-1,  1, -1); (-1,  1, 0); (-1,  1, 1);
    ( 0, -1, -1); ( 0, -1, 0); ( 0, -1, 1);
    ( 0,  0, -1); ( 0,  0, 0); ( 0,  0, 1);
    ( 0,  1, -1); ( 0,  1, 0); ( 0,  1, 1);
    ( 1, -1, -1); ( 1, -1, 0); ( 1, -1, 1);
    ( 1,  0, -1); ( 1,  0, 0); ( 1,  0, 1);
    ( 1,  1, -1); ( 1,  1, 0); ( 1,  1, 1) ].

(** The image of [pos] for a shift given as a triple. *)
Definition image_of {D : Type} `{DoubleOps D} (g : Globals D) (pos : Vector3d D)
    (box : BoxGeometry D) (s : Z * Z * Z) : Vector3d D :=
  shifted_position g pos box (fst (fst s)) (snd (fst s)) (snd s).

(** ** A sheared box

    A Lees-Edwards box with shear plane normal y and shear direction x, and a
    position offset of 1. *)

Module Sheared.
Definition lees_edwards (edge_y : double) : BoxGeometry double :=
  {| length := mkVec (double_of_Z 8) edge_y (double_of_Z 8);
     type := LEES_EDWARDS;
     lees_edwards_bc :=
       {| pos_offset := double_of_Z 1; shear_direction := AX;
          shear_plane_normal := AY |} |}.

Definition sheared_node (edge_y : double) : Globals double :=
  {| lattice_switch := WALBERLA_LB;
     lb_particle_coupling := lb_particle_coupling (UnitTest.globals dzero None);
     local_geo := UnitTest.whole_box;
     box_geo := lees_edwards edge_y;
     cell_structure := UnitTest.no_particles;
     lb := UnitTest.fluid_at_rest dzero;
     noise_uniform := UnitTest.sample_noise;
     noise_amplitude := fun gamma kT time_step => dmul gamma kT;
     ENGINE := true;
     LB_ELECTROHYDRODYNAMICS := true |}.

(** A box whose edge along the normal is [2^-60], below machine epsilon. *)
Definition thin_edge : double := double_of_bits 1 (-60).

Definition position : Vector3d double :=
  mkVec (double_of_Z 1) dzero (double_of_Z 1).
End Sheared.

(** ** States of the RNG counter and of the bookkeeping used below *)

Module Scenario.
(** [1E-4], the non-zero temperature of the unit tests. *)
Definition warm : double := literal 1 10000.

(** The coupling that [couple_particles] constructs on an unseeded node. *)
Definition cold_coupling : ParticleCoupling double :=
  ParticleCoupling_init (UnitTest.globals dzero None) false UnitTest.time_step.
Definition warm_coupling : ParticleCoupling double :=
  ParticleCoupling_init (UnitTest.globals warm None) false UnitTest.time_step.

(** After [lb_lbcoupling_set_rng_state(17)], as in the test case [rng]. *)
Definition seeded : Globals double :=
  UnitTest.globals warm (Some (Counter_init 17)).
(** After [lb_lbcoupling_set_rng_state(UINT64_MAX)]. *)
Definition seeded_max : Globals double :=
  UnitTest.globals warm (Some (Counter_init (uint64_modulus - 1))).

(** A node that owns particle 5 as a real particle and also sees a ghost
    copy of it, one box length further along x. *)
Definition owner : Particle double :=
  UnitTest.particle 5 (mkVec (literal 1 4) (double_of_Z 1) (double_of_Z 1))
    (mkVec (double_of_Z 1) dzero dzero).
Definition as_ghost (p : Particle double) (position : Vector3d double) : Particle double :=
  {| id := id p; pos := position; v := v p; force := force p;
     is_virtual := is_virtual p; is_ghost := true; swim := swim p;
     calc_director := calc_director p; mu_E := mu_E p |}.
Definition replica : Particle double :=
  as_ghost owner (mkVec (literal 33 4) (double_of_Z 1) (double_of_Z 1)).

Definition owning_node : Globals double :=
  {| lattice_switch := WALBERLA_LB;
     lb_particle_coupling := lb_particle_coupling (UnitTest.globals dzero None);
     local_geo := UnitTest.whole_box;
     box_geo := UnitTest.cuboid_box;
     cell_structure :=
       {| get_local_particle := fun i => if i =? 5 then Some owner else None |};
     lb := UnitTest.fluid_at_rest dzero;
     noise_uniform := UnitTest.sample_noise;
     noise_amplitude := fun gamma kT time_step => dmul gamma kT;
     ENGINE := true;
     LB_ELECTROHYDRODYNAMICS := true |}.
End Scenario.

(** The exception that [get_noise_term] throws. *)
Definition uninitialized_rng : exception :=
  runtime_error "Access to uninitialized LB particle coupling RNG counter".

(** ** One coupling step on all ranks

    Every rank runs [couple_particles] on its own copy of the globals (its
    own local box, cell structure and fluid) and on the real and ghost
    particles it stores. *)

Section Ranks.
Context {D : Type} `{DoubleOps D}.

Record Rank : Type := {
  node : Globals D;
  real_particles : list (Particle D);
  ghost_particles : list (Particle D)
}.

Definition couple_rank (couple_virtual : bool) (time_step : D) (r : Rank)
    : completion * (list (Particle D) * list (Particle D)) * ForceDensity D :=
  couple_particles (node r) couple_virtual (real_particles r) (ghost_particles r)
    time_step [].

(** The copies of the particle with identity [i], with the rank that stores
    each: real particles before ghosts, ranks in order. *)
Definition copies_of (i : Z) (ranks : list Rank) : list (Rank * Particle D) :=
  flat_map (fun r =>
              map (pair r)
                (filter (fun p => id p =? i) (real_particles r ++ ghost_particles r)))
    ranks.

(** The periodic images of a particle that lie in the local domain of a node. *)
Definition images_in_local_domain (g : Globals D) (p : Particle D) : list (Vector3d D) :=
  filter (fun pos => in_local_domain g pos dzero)
    (positions_in_halo g (pos p) (box_geo g)).

(** Whether the pass over the particles hands [p] to [kernel] and [kernel]
    does not skip it as virtual. *)
Definition is_coupled (g : Globals D) (couple_virtual : bool) (p : Particle D) : bool :=
  match should_be_coupled g p with
  | Ok true => negb (is_virtual p && negb couple_virtual)
  | _ => false
  end.

(** How often one pass adds the coupling force to [p.force()]. *)
Definition force_additions (g : Globals D) (couple_virtual : bool) (p : Particle D) : nat :=
  if is_coupled g couple_virtual p then List.length (images_in_local_domain g p) else 0%nat.

(** The coupling force that [kernel] computes for [p]. *)
Definition coupling_force_of (g : Globals D) (couple_virtual : bool) (time_step : D)
    (p : Particle D) : result (Vector3d D) :=
  calc_coupling_force (ParticleCoupling_init g couple_virtual time_step) g p
    (positions_in_halo g (pos p) (box_geo g)).

(** The particle after the pass. *)
Definition coupled_particle (g : Globals D) (couple_virtual : bool) (time_step : D)
    (p : Particle D) : Particle D :=
  match coupling_force_of g couple_virtual time_step p with
  | Ok coupling_force =>
      Nat.iter (force_additions g couple_virtual p)
        (fun q => add_force q coupling_force) p
  | _ => p
  end.
End Ranks.

Arguments Rank D : clear implicits.

(** ** Two ranks that split the unit-test box along x

    Rank 0 owns x in [0, 4) and stores particle 5 as a real particle at
    x = 0.25; rank 1 owns x in [4, 8) and sees it as a ghost at x = 8.25. *)

Module TwoRanks.
Definition half_box (from_x to_x : Z) : LocalBox double :=
  {| my_left := mkVec (double_of_Z from_x) dzero dzero;
     my_right := mkVec (double_of_Z to_x) (double_of_Z 8) (double_of_Z 8) |}.

Definition half_node (from_x to_x : Z) (stored : Particle double) : Globals double :=
  {| lattice_switch := WALBERLA_LB;
     lb_particle_coupling := lb_particle_coupling (UnitTest.globals dzero None);
     local_geo := half_box from_x to_x;
     box_geo := UnitTest.cuboid_box;
     cell_structure :=
       {| get_local_particle := fun i => if i =? id stored then Some stored else None |};
     lb := UnitTest.fluid_at_rest dzero;
     noise_uniform := UnitTest.sample_noise;
     noise_amplitude := fun gamma kT time_step => dmul gamma kT;
     ENGINE := true;
     LB_ELECTROHYDRODYNAMICS := true |}.

Definition rank0 : Rank double :=
  {| node := half_node 0 4 Scenario.owner;
     real_particles := [Scenario.owner];
     ghost_particles := [] |}.

Definition rank1 : Rank double :=
  {| node := half_node 4 8 Scenario.replica;
     real_particles := [];
     ghost_particles := [Scenario.replica] |}.

Definition ranks : list (Rank double) := [rank0; rank1].
End TwoRanks.

(** ** Two ghost copies of one particle on one rank

    The box is split along x and periodic along y.  Rank 0 owns x in [0, 4)
    and stores particle 5 as a real particle; the particle has moved to
    x = 4.25, y = 0.25 since the last resort.  Rank 1 owns x in [4, 8) and
    sees the particle twice: as a ghost at y = 0.25 and as a ghost one box
    length up, at y = 8.25. *)

Module GhostPair.
Definition moved : Particle double :=
  UnitTest.particle 5 (mkVec (literal 17 4) (literal 1 4) (double_of_Z 1))
    (mkVec (double_of_Z 1) dzero dzero).
Definition ghost_low : Particle double := Scenario.as_ghost moved (pos moved).
Definition ghost_high : Particle double :=
  Scenario.as_ghost moved (mkVec (literal 17 4) (literal 33 4) (double_of_Z 1)).

Definition owner_rank : Rank double :=
  {| node := TwoRanks.half_node 0 4 moved;
     real_particles := [moved];
     ghost_particles := [] |}.

Definition ghost_rank : Rank double :=
  {| node := TwoRanks.half_node 4 8 ghost_low;
     real_particles := [];
     ghost_particles := [ghost_low; ghost_high] |}.

Definition both_ranks : list (Rank double) := [owner_rank; ghost_rank].
End GhostPair.

(** ** A virtual particle and a particle just outside the box *)

Module Edge.
(** Particle 5 of [Scenario], marked as virtual. *)
Definition virtual_particle : Particle double :=
  {| id := 5; pos := pos Scenario.owner; v := v Scenario.owner; force := vzero;
     is_virtual := true; is_ghost := false; swim := UnitTest.not_swimming;
     calc_director := calc_director Scenario.owner; mu_E := vzero |}.

(** A real particle that has drifted to x = -2^-60, just below the box. *)
Definition drifted : Particle double :=
  UnitTest.particle 7 (mkVec (double_of_bits (-1) (-60)) (double_of_Z 1) (double_of_Z 1))
    (mkVec (double_of_Z 1) dzero dzero).
End Edge.

(** ** Switching the coupling on and off, and several integration steps *)

Section Toggle.
Context {D : Type} `{DoubleOps D}.

Definition set_couple_to_md (g : Globals D) (b : bool) : Globals D :=
  set_lb_particle_coupling g
    {| gamma := gamma (lb_particle_coupling g);
       couple_to_md := b;
       rng_counter_coupling := rng_counter_coupling (lb_particle_coupling g) |}.

Definition lb_lbcoupling_activate (g : Globals D) : Globals D :=
  set_couple_to_md g true.

(** The text of [runtimeWarningMsg()] in [lb_lbcoupling_deactivate]. *)
Definition deactivate_warning : string :=
  "Recalculating forces, so the LB coupling forces are not included in the particle force the first time step. This only matters if it happens frequently during sampling.".

(** [this_node] is the rank of the calling process; the warnings the call
    emits are returned with the new state. *)
Definition lb_lbcoupling_deactivate (this_node : Z) (g : Globals D)
    : Globals D * list string :=
  let warnings :=
    if negb (ActiveLB_eqb (lattice_switch g) NONE) && (this_node =? 0)
       && dgtb (gamma (lb_particle_coupling g)) dzero
    then [deactivate_warning]
    else [] in
  (set_couple_to_md g false, warnings).

(** [n] integration steps, each calling [lb_lbcoupling_propagate] once. *)
Fixpoint propagate_steps (n : nat) (g : Globals D) : result (Globals D) :=
  match n with
  | O => Ok g
  | S n => g' <- lb_lbcoupling_propagate g ;; propagate_steps n g'
  end.

(** Two particles that differ at most in their accumulated force. *)
Definition same_but_force (p q : Particle D) : Prop :=
  id p = id q /\ pos p = pos q /\ v p = v q /\ is_virtual p = is_virtual q
  /\ is_ghost p = is_ghost q /\ swim p = swim q
  /\ calc_director p = calc_director q /\ mu_E p = mu_E q.

(** The component of a shift triple along an axis. *)
Definition shift_along (s : Z * Z * Z) (a : Axis) : Z :=
  match a with AX => fst (fst s) | AY => snd (fst s) | AZ => snd s end.
End Toggle.

(** A double that is neither infinite nor NaN, and one that is not [-0.]. *)
Definition is_finite (x : double) : bool :=
  match x with
  | S754_zero _ | S754_finite _ _ _ => true
  | _ => false
  end.
Definition is_negative_zero (x : double) : bool :=
  match x with
  | S754_zero true => true
  | _ => false
  end.

(** ** A node that is active, warm and seeded, with a swimmer *)

Module Warm.
Definition seeded_node : Globals double :=
  {| lattice_switch := WALBERLA_LB;
     lb_particle_coupling := lb_particle_coupling Scenario.seeded;
     local_geo := UnitTest.whole_box;
     box_geo := UnitTest.cuboid_box;
     cell_structure := cell_structure Scenario.owning_node;
     lb := UnitTest.fluid_at_rest Scenario.warm;
     noise_uniform := UnitTest.sample_noise;
     noise_amplitude := fun gamma kT time_step => dmul gamma kT;
     ENGINE := true;
     LB_ELECTROHYDRODYNAMICS := true |}.

Definition unseeded_node : Globals double := UnitTest.globals Scenario.warm None.

(** No lattice method active, but a counter left over from an earlier run. *)
Definition inactive_node : Globals double :=
  {| lattice_switch := NONE;
     lb_particle_coupling := lb_particle_coupling Scenario.seeded;
     local_geo := UnitTest.whole_box;
     box_geo := UnitTest.cuboid_box;
     cell_structure := UnitTest.no_particles;
     lb := UnitTest.fluid_at_rest Scenario.warm;
     noise_uniform := UnitTest.sample_noise;
     noise_amplitude := fun gamma kT time_step => dmul gamma kT;
     ENGINE := true;
     LB_ELECTROHYDRODYNAMICS := true |}.

(** The swimmer of the test case [swimmer_force], placed far outside the box. *)
Definition swimmer : Particle double :=
  {| id := 9;
     pos := mkVec (double_of_Z 100) (double_of_Z 1) (double_of_Z 1);
     v := mkVec (double_of_Z 1) dzero dzero; force := vzero;
     is_virtual := false; is_ghost := false;
     swim := {| swimming := true; f_swim := double_of_Z 2; v_swim := dzero;
                push_pull := -1; dipole_length := double_of_Z 96 |};
     calc_director := mkVec (double_of_Z 1) dzero dzero; mu_E := vzero |}.
End Warm.

(** * Properties *)

(** ** Lists built by [push_back] in a loop *)

Lemma fold_push_filter {A B : Type} (f : A -> B) (keep : B -> bool) (l : list A)
    (res : list B) :
  fold_left (fun res a => if keep (f a) then res ++ [f a] else res) l res
  = res ++ filter keep (map f l).
Proof.
  revert res; induction l as [|a l IH]; intros res; cbn.
  - now rewrite app_nil_r.
  - rewrite IH. destruct (keep (f a)); cbn; [now rewrite <- app_assoc|reflexivity].
Qed.

(** ** Local domain (C9) *)

Lemma in_local_domain_components {D : Type} `{DoubleOps D}
    (g : Globals D) (pos : Vector3d D) (halo : D) :
  in_local_domain g pos halo = true <->
  forall i : Axis,
    dgeb (vget pos i) (dsub (vget (my_left (local_geo g)) i) halo) = true /\
    dltb (vget pos i) (dadd (vget (my_right (local_geo g)) i) halo) = true.
Proof.
  unfold in_local_domain, vgeb, vltb, vall, vsub, vadd, vzip, broadcast; cbn.
  rewrite !andb_true_iff. split.
  - intros [[[Hx Hy] Hz] [[Kx Ky] Kz]] [| |]; cbn; auto.
  - intros Hall.
    pose proof (Hall AX) as [Hx Kx]; pose proof (Hall AY) as [Hy Ky];
      pose proof (Hall AZ) as [Hz Kz]; cbn in *; auto.
Qed.

(** C9. [in_local_domain g pos halo] holds exactly when every component of
    [pos] is at least the lower corner lowered by [halo] and strictly below the
    upper corner raised by [halo] (a half-open box: the upper boundary is
    excluded on each axis), and [in_local_halo] is [in_local_domain] with
    [halo = 0.5 * agrid].  Both are functions of the position and of the
    global geometry only, and return nothing but the truth value. *)
Theorem in_local_domain_half_open_box {D : Type} `{DoubleOps D}
    (g : Globals D) (pos : Vector3d D) (halo : D) :
  (in_local_domain g pos halo = true <->
   forall i : Axis,
     dgeb (vget pos i) (dsub (vget (my_left (local_geo g)) i) halo) = true /\
     dltb (vget pos i) (dadd (vget (my_right (local_geo g)) i) halo) = true)
  /\ in_local_halo g pos = in_local_domain g pos (dmul dhalf (get_agrid (lb g))).
Proof.
  split; [apply in_local_domain_components|reflexivity].
Qed.

(** On doubles [<] is irreflexive. *)
Lemma SFltb_irrefl (x : double) : SFltb x x = false.
Proof.
  unfold SFltb, SFcompare.
  destruct x as [s|s| |s m e]; try destruct s; try reflexivity;
    rewrite Z.compare_refl, Pos.compare_cont_refl; reflexivity.
Qed.

(** In double arithmetic a position with a component on the raised upper
    corner is outside. *)
Lemma in_local_domain_excludes_upper (g : Globals double) (pos : Vector3d double)
    (halo : double) (i : Axis) :
  vget pos i = dadd (vget (my_right (local_geo g)) i) halo ->
  in_local_domain g pos halo = false.
Proof.
  intros Hi. apply not_true_is_false. intros Hin.
  destruct (proj1 (in_local_domain_components g pos halo) Hin i) as [_ Hlt].
  rewrite Hi in Hlt. change (@dltb double binary64) with SFltb in Hlt.
  now rewrite SFltb_irrefl in Hlt.
Qed.

(** The unit-test box: the lower corner is inside and the upper corner is
    outside the local domain; the halo reaches down to -0.5 and excludes 8.5. *)
Example in_local_domain_unit_test_corners :
  let g := UnitTest.globals dzero None in
  in_local_domain g (my_left (local_geo g)) dzero = true
  /\ in_local_domain g (my_right (local_geo g)) dzero = false
  /\ in_local_halo g (broadcast (literal (-1) 2)) = true
  /\ in_local_halo g (broadcast (literal 17 2)) = false.
Proof. cbv zeta. repeat split; vm_compute; reflexivity. Qed.

(** ** Periodic images (C7) *)

Lemma fold_append_flat_map {A B : Type} (h : A -> list B) (l : list A) (res : list B) :
  fold_left (fun res a => res ++ h a) l res = res ++ flat_map h l.
Proof.
  revert res; induction l as [|a l IH]; intros res; cbn.
  - now rewrite app_nil_r.
  - now rewrite IH, app_assoc.
Qed.

Lemma filter_map_triples {B : Type} (f : Z -> Z -> Z -> B) (keep : B -> bool)
    (xs ys zs : list Z) :
  flat_map (fun i => flat_map (fun j => filter keep (map (f i j) zs)) ys) xs
  = filter keep
      (map (fun s => f (fst (fst s)) (snd (fst s)) (snd s)) (shift_triples_of xs ys zs)).
Proof.
  unfold shift_triples_of.
  induction xs as [|i xs IHx]; cbn; [reflexivity|].
  rewrite map_app, filter_app, <- IHx. f_equal.
  clear IHx. induction ys as [|j ys IHy]; cbn; [reflexivity|].
  rewrite map_app, filter_app, <- IHy. f_equal.
  now rewrite map_map.
Qed.

Lemma shift_triples_nested : shift_triples = shift_triples_of shift_range shift_range shift_range.
Proof. reflexivity. Qed.

Lemma fold_left_pointwise {A B : Type} (F G : A -> B -> A) (l : list B) (a : A) :
  (forall a b, F a b = G a b) -> fold_left F l a = fold_left G l a.
Proof.
  intros E. revert a; induction l as [|b l IH]; intros a; cbn; [reflexivity|].
  now rewrite E, IH.
Qed.

Lemma positions_in_halo_filter {D : Type} `{DoubleOps D}
    (g : Globals D) (pos : Vector3d D) (box : BoxGeometry D) :
  positions_in_halo g pos box
  = filter (in_local_halo g) (map (image_of g pos box) shift_triples).
Proof.
  unfold positions_in_halo.
  rewrite shift_triples_nested.
  unfold image_of.
  rewrite <- (filter_map_triples (shifted_position g pos box) (in_local_halo g)).
  rewrite <- (app_nil_l (flat_map _ _)), <- fold_append_flat_map.
  apply fold_left_pointwise; intros res i.
  rewrite <- fold_append_flat_map.
  apply fold_left_pointwise; intros res' j.
  apply (fold_push_filter (shifted_position g pos box i j)).
Qed.

Lemma vget_vset_same {T : Type} (a : Vector3 T) (i : Axis) (t : T) :
  vget (vset a i t) i = t.
Proof. now destruct i. Qed.

Lemma vget_vset_other {T : Type} (a : Vector3 T) (i j : Axis) (t : T) :
  j <> i -> vget (vset a i t) j = vget a j.
Proof. destruct i, j; cbn; congruence. Qed.

(** On doubles the two tests of the Lees-Edwards correction exclude each
    other: nothing is both above [epsilon] and below [-epsilon]. *)
Lemma binary64_shift_tests_exclusive (normal_shift : double) :
  dgtb normal_shift depsilon = true -> dltb normal_shift (dopp depsilon) = false.
Proof.
  unfold dgtb.
  change (@dltb double binary64) with SFltb.
  change (@dopp double binary64) with SFopp.
  change (@depsilon double binary64) with (double_of_bits 1 (-52)).
  replace (double_of_bits 1 (-52)) with (S754_finite false 4503599627370496 (-104))
    by (vm_compute; reflexivity).
  destruct normal_shift as [s|s| |s m e]; try destruct s;
    unfold SFltb, SFcompare, SFopp; first [discriminate | intros _; reflexivity].
Qed.

(** C7 (amended).  [positions_in_halo] tries the 27 shifts of [shift_triples]
    (x outermost, z innermost, each over -1, 0, +1) and returns, in that
    order, exactly the images that satisfy [in_local_halo].  The image for a
    shift is [pos + length * shift]; when the global box geometry is of
    Lees-Edwards type, its coordinate along the shear direction is
    additionally raised by [pos_offset] if the displacement along the shear
    plane normal, as computed, exceeds machine epsilon, and lowered by
    [pos_offset] if it is below minus machine epsilon; no other coordinate
    changes, and a displacement within machine epsilon of zero changes
    nothing. *)
Theorem positions_in_halo_images {D : Type} `{DoubleOps D}
    (g : Globals D) (pos : Vector3d D) (box : BoxGeometry D) :
  positions_in_halo g pos box
  = filter (in_local_halo g) (map (image_of g pos box) shift_triples)
  /\
  forall s : Z * Z * Z,
    let shift := mkVec (d_of_int (fst (fst s))) (d_of_int (snd (fst s))) (d_of_int (snd s)) in
    let base := vadd pos (hadamard_product (length box) shift) in
    let le := lees_edwards_bc (box_geo g) in
    let normal_shift := vget (vsub base pos) (shear_plane_normal le) in
    (type (box_geo g) = CUBOID -> image_of g pos box s = base) /\
    (type (box_geo g) = LEES_EDWARDS ->
       (forall a, a <> shear_direction le ->
          vget (image_of g pos box s) a = vget base a) /\
       (dgtb normal_shift depsilon = true ->
        dltb normal_shift (dopp depsilon) = false ->
          vget (image_of g pos box s) (shear_direction le)
          = dadd (vget base (shear_direction le)) (pos_offset le)) /\
       (dgtb normal_shift depsilon = false ->
        dltb normal_shift (dopp depsilon) = true ->
          vget (image_of g pos box s) (shear_direction le)
          = dsub (vget base (shear_direction le)) (pos_offset le)) /\
       (dgtb normal_shift depsilon = false ->
        dltb normal_shift (dopp depsilon) = false ->
          image_of g pos box s = base)).
Proof.
  split; [apply positions_in_halo_filter|].
  intros [[i j] k]; cbn zeta; unfold image_of, shifted_position; cbn [fst snd].
  split; [intros ->; reflexivity|].
  intros ->.
  repeat split.
  - intros a Ha.
    repeat match goal with |- context [if ?b then _ else _] => destruct b end;
      rewrite ?vget_vset_other by assumption; reflexivity.
  - intros -> ->. now rewrite vget_vset_same.
  - intros -> ->. now rewrite vget_vset_same.
  - intros -> ->. reflexivity.
Qed.

(** In a sheared box of edge 8 the image shifted by one box length along the
    normal is moved by the position offset along the shear direction. *)
Lemma positions_in_halo_images_witness :
  vget (image_of (Sheared.sheared_node (double_of_Z 8)) Sheared.position
          (Sheared.lees_edwards (double_of_Z 8)) (0, 1, 0)) AX
  = double_of_Z 2.
Proof.
  pose proof (positions_in_halo_images (Sheared.sheared_node (double_of_Z 8)) Sheared.position
                (Sheared.lees_edwards (double_of_Z 8))) as [_ Himg].
  destruct (Himg (0, 1, 0)) as [_ Hle].
  destruct (Hle eq_refl) as (_ & Hup & _).
  refine (eq_trans (Hup _ _) _); vm_compute; reflexivity.
Defined.

(** C7 as stated fails where the box edge along the shear plane normal is
    below machine epsilon: the shift by one box length along the normal is
    not zero, yet the guard of the code leaves the image uncorrected. *)
Lemma positions_in_halo_thin_box_uncorrected :
  let g := Sheared.sheared_node Sheared.thin_edge in
  let box := box_geo g in
  let le := lees_edwards_bc box in
  let image := image_of g Sheared.position box (0, 1, 0) in
  type box = LEES_EDWARDS
  /\ dmul (vget (length box) (shear_plane_normal le)) (d_of_int 1) = Sheared.thin_edge
  /\ dgtb Sheared.thin_edge dzero = true
  /\ image = mkVec (double_of_Z 1) Sheared.thin_edge (double_of_Z 1)
  /\ vget image (shear_direction le)
     <> dadd (vget Sheared.position (shear_direction le)) (pos_offset le).
Proof.
  cbv zeta. repeat split; try (vm_compute; reflexivity).
  vm_compute. discriminate.
Qed.

(** ** Noise and the RNG counter (C10, C8, C5) *)

(** C10. Whatever the particle id and whatever the state of the RNG counter
    (seeded with any value, or never seeded), [get_noise_term] returns the
    zero vector when the coupling is not thermalized. *)
Theorem get_noise_term_not_thermalized {D : Type} `{DoubleOps D}
    (pc : ParticleCoupling D) (g : Globals D) (pid : Z) :
  m_thermalized pc = false ->
  get_noise_term pc g pid = Ok vzero.
Proof.
  intros Hth. unfold get_noise_term. now rewrite Hth.
Qed.

Lemma get_noise_term_not_thermalized_witness :
  m_thermalized Scenario.cold_coupling = false
  /\ get_noise_term Scenario.cold_coupling (UnitTest.globals dzero None) 4 = Ok vzero.
Proof.
  assert (Hcold : m_thermalized Scenario.cold_coupling = false)
    by (vm_compute; reflexivity).
  split; [exact Hcold|].
  exact (get_noise_term_not_thermalized Scenario.cold_coupling
           (UnitTest.globals dzero None) 4 Hcold).
Defined.

(** The first image in the local halo decides the coupling force. *)
Lemma calc_coupling_force_filter {D : Type} `{DoubleOps D}
    (pc : ParticleCoupling D) (g : Globals D) (p : Particle D) (l : list (Vector3d D)) :
  calc_coupling_force pc g p (filter (in_local_halo g) l)
  = match filter (in_local_halo g) l with
    | [] => Ok vzero
    | pos :: _ =>
        random_force <- get_noise_term pc g (id p) ;;
        Ok (vadd (lb_drag_force g p pos (lb_particle_coupling_drift_vel_offset g p))
                 random_force)
    end.
Proof.
  induction l as [|a l IH]; cbn; [reflexivity|].
  destruct (in_local_halo g a) eqn:Ha; [|exact IH].
  cbn. now rewrite Ha.
Qed.

Lemma calc_coupling_force_images {D : Type} `{DoubleOps D}
    (pc : ParticleCoupling D) (g : Globals D) (p : Particle D) :
  calc_coupling_force pc g p (positions_in_halo g (pos p) (box_geo g))
  = match positions_in_halo g (pos p) (box_geo g) with
    | [] => Ok vzero
    | pos :: _ =>
        random_force <- get_noise_term pc g (id p) ;;
        Ok (vadd (lb_drag_force g p pos (lb_particle_coupling_drift_vel_offset g p))
                 random_force)
    end.
Proof.
  rewrite positions_in_halo_filter. apply calc_coupling_force_filter.
Qed.

(** C8 (amended).  While the coupling is thermalized and no seed has been
    set, [get_noise_term] throws "Access to uninitialized LB particle coupling
    RNG counter"; a call of [kernel] that asks for the noise (the particle is
    not skipped as virtual and has an image in the local halo) ends with that
    exception and leaves the particle and the force density of the fluid as
    they were. *)
Theorem get_noise_term_unseeded_throws {D : Type} `{DoubleOps D}
    (pc : ParticleCoupling D) (g : Globals D) (pid : Z) :
  m_thermalized pc = true ->
  rng_counter_coupling (lb_particle_coupling g) = None ->
  get_noise_term pc g pid = Throw uninitialized_rng
  /\ forall (p : Particle D) (fluid : ForceDensity D),
       is_virtual p && negb (m_couple_virtual pc) = false ->
       positions_in_halo g (pos p) (box_geo g) <> [] ->
       kernel pc g p fluid = (Thrown uninitialized_rng, p, fluid).
Proof.
  intros Hth Hseed.
  assert (Hnoise : forall i, get_noise_term pc g i = Throw uninitialized_rng).
  { intros i. unfold get_noise_term. now rewrite Hth, Hseed. }
  split; [apply Hnoise|].
  intros p fluid Hskip Himg. unfold kernel. rewrite Hskip.
  rewrite calc_coupling_force_images.
  destruct (positions_in_halo g (pos p) (box_geo g)) as [|pos0 rest]; [congruence|].
  now rewrite Hnoise.
Qed.

Lemma get_noise_term_unseeded_throws_witness :
  get_noise_term Scenario.warm_coupling (UnitTest.globals Scenario.warm None) 4
  = Throw uninitialized_rng
  /\ kernel Scenario.warm_coupling (UnitTest.globals Scenario.warm None) Scenario.owner []
     = (Thrown uninitialized_rng, Scenario.owner, []).
Proof.
  destruct (get_noise_term_unseeded_throws Scenario.warm_coupling
              (UnitTest.globals Scenario.warm None) 4) as [Hnoise Hkernel].
  - vm_compute; reflexivity.
  - reflexivity.
  - split; [exact Hnoise|].
    apply Hkernel.
    + reflexivity.
    + vm_compute; discriminate.
Defined.

(** C8 as stated fails for [get_noise_term]: with the lattice method active
    and no seed set, a coupling that is not thermalized gets the zero vector
    and no exception. *)
Lemma get_noise_term_unseeded_not_thermalized_returns :
  let g := UnitTest.globals dzero None in
  lattice_switch g = WALBERLA_LB
  /\ lb_lbcoupling_is_seed_required g = true
  /\ get_noise_term Scenario.cold_coupling g 4 = Ok vzero
  /\ forall e, get_noise_term Scenario.cold_coupling g 4 <> Throw e.
Proof.
  cbv zeta.
  assert (Hret : get_noise_term Scenario.cold_coupling (UnitTest.globals dzero None) 4
                 = Ok vzero) by (vm_compute; reflexivity).
  split; [reflexivity|]. split; [reflexivity|]. split; [exact Hret|].
  intros e. rewrite Hret. discriminate.
Qed.

(** The unchecked dereference in [lb_coupling_get_rng_state_cpu]: asking for
    the RNG state of an active, unseeded coupling is not defined, and throws
    nothing. *)
Lemma get_rng_state_unseeded_undefined {D : Type} `{DoubleOps D} (g : Globals D) :
  lattice_switch g = WALBERLA_LB ->
  rng_counter_coupling (lb_particle_coupling g) = None ->
  lb_lbcoupling_get_rng_state g = Undefined.
Proof.
  intros Hact Hseed. unfold lb_lbcoupling_get_rng_state, lb_coupling_get_rng_state_cpu.
  now rewrite Hact, Hseed.
Qed.

Lemma to_uint64_small (z : Z) : 0 <= z < uint64_modulus -> to_uint64 z = z.
Proof. intros Hz. unfold to_uint64. now apply Z.mod_small. Qed.

Lemma lb_lbcoupling_propagate_seeded {D : Type} `{DoubleOps D} (g : Globals D) (c : Counter) :
  rng_counter_coupling (lb_particle_coupling g) = Some c ->
  lattice_switch g <> NONE ->
  dgtb (get_kT (lb g)) dzero = true ->
  lb_lbcoupling_propagate g = Ok (set_rng_counter_coupling g (Some (increment c))).
Proof.
  intros Hseed Hact Hwarm.
  assert (Hlb : lattice_switch g = WALBERLA_LB) by (destruct (lattice_switch g); congruence).
  unfold lb_lbcoupling_propagate. now rewrite Hlb, Hwarm, Hseed.
Qed.

(** C5 (amended).  On a seeded coupling, one call of [propagate] with the
    lattice method active and [kT > 0] advances the RNG counter by one in
    [uint64_t] arithmetic: [get_rng_state] returns the previous value plus 1
    modulo 2^64, which is the previous value plus 1 unless that value was
    2^64 - 1.  With no lattice method active, or with [kT > 0] false (as for
    [kT = 0]), [propagate] changes nothing. *)
Theorem lb_lbcoupling_propagate_counter {D : Type} `{DoubleOps D} (g : Globals D) :
  (forall c : Counter,
     rng_counter_coupling (lb_particle_coupling g) = Some c ->
     lattice_switch g <> NONE ->
     dgtb (get_kT (lb g)) dzero = true ->
     lb_lbcoupling_get_rng_state g = Ok (value c)
     /\ exists g' : Globals D,
          lb_lbcoupling_propagate g = Ok g'
          /\ lb_lbcoupling_get_rng_state g' = Ok (to_uint64 (value c + 1))
          /\ (0 <= value c < uint64_modulus - 1 ->
              lb_lbcoupling_get_rng_state g' = Ok (value c + 1)))
  /\ (lattice_switch g = NONE \/ dgtb (get_kT (lb g)) dzero = false ->
      lb_lbcoupling_propagate g = Ok g).
Proof.
  split.
  - intros c Hseed Hact Hwarm.
    assert (Hlb : lattice_switch g = WALBERLA_LB) by (destruct (lattice_switch g); congruence).
    unfold lb_lbcoupling_propagate, lb_lbcoupling_get_rng_state,
      lb_coupling_get_rng_state_cpu.
    rewrite Hlb, Hwarm, Hseed; cbn.
    split; [reflexivity|].
    eexists; split; [reflexivity|]. cbn. rewrite Hlb; cbn.
    split; [reflexivity|].
    intros Hc. rewrite to_uint64_small by (unfold uint64_modulus, value in *; lia). reflexivity.
  - intros [Hoff | Hcold]; unfold lb_lbcoupling_propagate.
    + now rewrite Hoff.
    + rewrite Hcold. now destruct (negb _).
Qed.

(** The test case [rng]: seeded with 17, one step later the state is 18. *)
Lemma lb_lbcoupling_propagate_counter_witness :
  lb_lbcoupling_get_rng_state Scenario.seeded = Ok 17
  /\ exists g' : Globals double,
       lb_lbcoupling_propagate Scenario.seeded = Ok g'
       /\ lb_lbcoupling_get_rng_state g' = Ok 18.
Proof.
  destruct (lb_lbcoupling_propagate_counter Scenario.seeded) as [Hstep _].
  destruct (Hstep (Counter_init 17)) as (Hbefore & g' & Hrun & _ & Hafter).
  - reflexivity.
  - discriminate.
  - vm_compute; reflexivity.
  - split; [exact Hbefore|].
    exists g'. split; [exact Hrun|].
    apply Hafter. vm_compute. split; [discriminate|reflexivity].
Defined.

(** C5 as stated fails at the largest counter: the state after the step is
    0, not the previous value plus 1. *)
Lemma lb_lbcoupling_propagate_wraps :
  lattice_switch Scenario.seeded_max = WALBERLA_LB
  /\ dgtb (get_kT (lb Scenario.seeded_max)) dzero = true
  /\ lb_lbcoupling_get_rng_state Scenario.seeded_max = Ok (2 ^ 64 - 1)
  /\ exists g' : Globals double,
       lb_lbcoupling_propagate Scenario.seeded_max = Ok g'
       /\ lb_lbcoupling_get_rng_state g' = Ok 0
       /\ lb_lbcoupling_get_rng_state g' <> Ok ((2 ^ 64 - 1) + 1).
Proof.
  assert (Hwarm : dgtb (get_kT (lb Scenario.seeded_max)) dzero = true)
    by (vm_compute; reflexivity).
  split; [reflexivity|]. split; [exact Hwarm|].
  split; [vm_compute; reflexivity|].
  eexists. split.
  - apply lb_lbcoupling_propagate_seeded with (c := Counter_init (uint64_modulus - 1));
      [reflexivity|discriminate|exact Hwarm].
  - split; [vm_compute; reflexivity|].
    vm_compute. discriminate.
Qed.

(** ** Bookkeeping (C3) *)

(** C3 (amended).  When the node stores a particle under the id of [p],
    [is_ghost_for_local_particle p] is true exactly when that stored particle
    is not a ghost, that is when the node owns the identity as a real
    particle; and [should_be_coupled] admits [p] unless [p] is a ghost whose
    identity the node owns as a real particle. *)
Theorem is_ghost_for_local_particle_owned {D : Type} `{DoubleOps D}
    (g : Globals D) (p local : Particle D) :
  get_local_particle (cell_structure g) (id p) = Some local ->
  is_ghost_for_local_particle g p = Ok (negb (is_ghost local))
  /\ should_be_coupled g p = Ok (negb (is_ghost p && negb (is_ghost local))).
Proof.
  intros Hlocal. unfold should_be_coupled, is_ghost_for_local_particle.
  rewrite Hlocal. split; [reflexivity|].
  destruct (is_ghost p); reflexivity.
Qed.

Lemma is_ghost_for_local_particle_owned_witness :
  is_ghost_for_local_particle Scenario.owning_node Scenario.replica = Ok true
  /\ should_be_coupled Scenario.owning_node Scenario.replica = Ok false.
Proof.
  exact (@is_ghost_for_local_particle_owned double binary64 Scenario.owning_node
           Scenario.replica Scenario.owner eq_refl).
Defined.

(** C3 as stated fails: the particle stored under id 5 is real, not a ghost,
    and [is_ghost_for_local_particle] is true. *)
Lemma is_ghost_for_local_particle_true_for_real_local :
  get_local_particle (cell_structure Scenario.owning_node) (id Scenario.replica)
  = Some Scenario.owner
  /\ is_ghost Scenario.owner = false
  /\ is_ghost_for_local_particle Scenario.owning_node Scenario.replica = Ok true.
Proof. repeat split. Qed.

(** ** Drag force (C4) *)

Lemma lb_drag_force_formula {D : Type} `{DoubleOps D}
    (g : Globals D) (p : Particle D) (shifted_pos vel_offset : Vector3d D) :
  lb_drag_force g p shifted_pos vel_offset
  = smul (dopp (gamma (lb_particle_coupling g)))
      (vsub (v p)
         (vadd (vmuls (get_interpolated_velocity (lb g) shifted_pos)
                  (get_lattice_speed (lb g)))
               vel_offset)).
Proof. reflexivity. Qed.

(** C4 (amended).  In every arithmetic, [lb_drag_force p pos drift_offset]
    is [-gamma * (p.v - (interpolated_velocity(pos) * lattice_speed + drift_offset))].
    For the fluid at rest of the unit test, [gamma = 0.2], velocity
    (-2.5, 1.5, 2) and drift offset (-1, 1, 1), at every position,
    temperature and state of the RNG counter, the result in double arithmetic
    has the y and z components -0.1 and -0.2 and an x component that is the
    next double above 0.3 (0.2 is not a double, and the product rounds up);
    its distance to (0.3, -0.1, -0.2) is below the tolerance [tol] of the
    test. *)
Theorem lb_drag_force_quiescent :
  (forall (D : Type) (ops : DoubleOps D) (g : Globals D) (p : Particle D)
          (shifted_pos vel_offset : Vector3d D),
     lb_drag_force g p shifted_pos vel_offset
     = smul (dopp (gamma (lb_particle_coupling g)))
         (vsub (v p)
            (vadd (vmuls (get_interpolated_velocity (lb g) shifted_pos)
                     (get_lattice_speed (lb g)))
                  vel_offset)))
  /\
  forall (kT : double) (rng : option Counter) (shifted_pos : Vector3d double),
    let observed :=
      lb_drag_force (UnitTest.globals kT rng) UnitTest.drag_particle shifted_pos
        UnitTest.drift_offset in
    observed
    = mkVec (SFsucc prec emax (literal 3 10)) (dopp (literal 1 10)) (dopp (literal 2 10))
    /\ dltb (norm (vsub observed UnitTest.expected_drag)) UnitTest.tol = true.
Proof.
  split; [reflexivity|].
  intros kT rng shifted_pos; cbv zeta.
  assert (Hobs : lb_drag_force (UnitTest.globals kT rng) UnitTest.drag_particle shifted_pos
                   UnitTest.drift_offset
                 = mkVec (SFsucc prec emax (literal 3 10)) (dopp (literal 1 10))
                     (dopp (literal 2 10))).
  { rewrite lb_drag_force_formula.
    change (get_interpolated_velocity (lb (UnitTest.globals kT rng)) shifted_pos)
      with (@vzero double binary64).
    change (get_lattice_speed (lb (UnitTest.globals kT rng)))
      with (ddiv UnitTest.agrid UnitTest.tau).
    change (gamma (lb_particle_coupling (UnitTest.globals kT rng))) with (literal 2 10).
    vm_compute. reflexivity. }
  rewrite Hobs. split; [reflexivity|].
  vm_compute. reflexivity.
Qed.

(** C4 as stated fails in the example: the x component of the drag force is
    not the double 0.3. *)
Lemma lb_drag_force_quiescent_not_exact :
  lb_drag_force (UnitTest.globals dzero None) UnitTest.drag_particle
    (my_left (local_geo (UnitTest.globals dzero None))) UnitTest.drift_offset
  <> mkVec (literal 3 10) (dopp (literal 1 10)) (dopp (literal 2 10)).
Proof.
  vm_compute. discriminate.
Qed.

(** ** The kernel (C2) *)

(** The change of lattice force density for an MD force, eq. (12) of
    Ahlrichs and Duenweg as [add_md_force] computes it. *)
Lemma add_md_force_appends {D : Type} `{DoubleOps D}
    (g : Globals D) (pos force : Vector3d D) (time_step : D) (fluid : ForceDensity D) :
  add_md_force g pos force time_step fluid
  = fluid ++ [(pos, smul (dopp (ddiv time_step (get_lattice_speed (lb g)))) force)].
Proof. reflexivity. Qed.

Lemma fold_add_md_force {D : Type} `{DoubleOps D}
    (g : Globals D) (force : Vector3d D) (time_step : D)
    (positions : list (Vector3d D)) (fluid : ForceDensity D) :
  fold_left (fun fluid pos => add_md_force g pos force time_step fluid) positions fluid
  = fluid ++ map (fun pos => (pos, smul (dopp (ddiv time_step (get_lattice_speed (lb g)))) force))
               positions.
Proof.
  revert fluid; induction positions as [|pos positions IH]; intros fluid; cbn [fold_left map].
  - now rewrite app_nil_r.
  - rewrite IH, add_md_force_appends, <- app_assoc. reflexivity.
Qed.

Lemma add_swimmer_force_appends {D : Type} `{DoubleOps D}
    (g : Globals D) (p : Particle D) (time_step : D) (fluid : ForceDensity D) :
  add_swimmer_force g p time_step fluid = fluid ++ add_swimmer_force g p time_step [].
Proof.
  unfold add_swimmer_force. destruct (swimming (swim p)).
  - now rewrite !fold_add_md_force.
  - now rewrite app_nil_r.
Qed.

Lemma add_swimmer_force_add_force {D : Type} `{DoubleOps D}
    (g : Globals D) (p : Particle D) (f : Vector3d D) (time_step : D)
    (fluid : ForceDensity D) :
  add_swimmer_force g (add_force p f) time_step fluid = add_swimmer_force g p time_step fluid.
Proof. reflexivity. Qed.

(** The second loop of [kernel]: the particle receives the force once per
    position in the local domain, the fluid once per position. *)
Lemma fold_couple_position {D : Type} `{DoubleOps D}
    (pc : ParticleCoupling D) (g : Globals D) (coupling_force : Vector3d D)
    (positions : list (Vector3d D)) (p : Particle D) (fluid : ForceDensity D) :
  fold_left (couple_position pc g coupling_force) positions (p, fluid)
  = (Nat.iter (List.length (filter (fun pos => in_local_domain g pos dzero) positions))
       (fun q => add_force q coupling_force) p,
     fluid ++ map (fun pos =>
                     (pos, smul (dopp (ddiv (m_time_step pc) (get_lattice_speed (lb g))))
                             coupling_force))
                positions).
Proof.
  revert p fluid; induction positions as [|pos positions IH]; intros p fluid;
    cbn [fold_left map filter].
  - now rewrite app_nil_r.
  - unfold couple_position at 2; cbn [fst snd].
    rewrite IH, add_md_force_appends, <- app_assoc. f_equal.
    destruct (in_local_domain g pos dzero); [|reflexivity].
    cbn [List.length]. now rewrite Nat.iter_succ_r.
Qed.

Lemma get_noise_term_returns {D : Type} `{DoubleOps D}
    (pc : ParticleCoupling D) (g : Globals D) (pid : Z) :
  m_thermalized pc = false \/ rng_counter_coupling (lb_particle_coupling g) <> None ->
  exists random_force, get_noise_term pc g pid = Ok random_force.
Proof.
  unfold get_noise_term. intros [-> | Hseed]; cbn; [now eexists|].
  destruct (m_thermalized pc); cbn; [|now eexists].
  destruct (rng_counter_coupling (lb_particle_coupling g)); [now eexists|congruence].
Qed.

Lemma calc_coupling_force_returns {D : Type} `{DoubleOps D}
    (pc : ParticleCoupling D) (g : Globals D) (p : Particle D) (l : list (Vector3d D)) :
  m_thermalized pc = false \/ rng_counter_coupling (lb_particle_coupling g) <> None ->
  exists coupling_force, calc_coupling_force pc g p l = Ok coupling_force.
Proof.
  intros Hrng. induction l as [|pos l IH]; cbn; [now eexists|].
  destruct (in_local_halo g pos); [|exact IH].
  destruct (get_noise_term_returns pc g (id p) Hrng) as [random_force ->]; cbn.
  now eexists.
Qed.

(** What [kernel] does once the coupling force is known. *)
Lemma kernel_unfold {D : Type} `{DoubleOps D}
    (pc : ParticleCoupling D) (g : Globals D) (p : Particle D) (fluid : ForceDensity D)
    (coupling_force : Vector3d D) :
  is_virtual p && negb (m_couple_virtual pc) = false ->
  calc_coupling_force pc g p (positions_in_halo g (pos p) (box_geo g)) = Ok coupling_force ->
  kernel pc g p fluid
  = (Normal,
     Nat.iter (List.length (filter (fun pos => in_local_domain g pos dzero)
                              (positions_in_halo g (pos p) (box_geo g))))
       (fun q => add_force q coupling_force) p,
     (fluid ++ map (fun pos =>
                      (pos, smul (dopp (ddiv (m_time_step pc) (get_lattice_speed (lb g))))
                              coupling_force))
                 (positions_in_halo g (pos p) (box_geo g)))
     ++ (if ENGINE g then add_swimmer_force g p (m_time_step pc) [] else [])).
Proof.
  intros Hskip Hforce. unfold kernel. rewrite Hskip, Hforce, fold_couple_position.
  cbn [fst snd]. f_equal.
  destruct (ENGINE g); [|now rewrite app_nil_r].
  rewrite add_swimmer_force_appends. f_equal.
  generalize (List.length (filter (fun pos => in_local_domain g pos dzero)
                             (positions_in_halo g (pos p) (box_geo g)))).
  intros n; induction n as [|n IH]; [reflexivity|].
  rewrite Nat.iter_succ. now rewrite add_swimmer_force_add_force.
Qed.

(** C2 (amended).  What [kernel] injects into the fluid, in every case.
    - A particle that [kernel] skips as virtual (virtual, with
      [couple_virtual] unset): nothing is injected and the particle is as it
      was.
    - A particle that is not skipped, on a coupling that is thermalized and
      has no seed, with an image in the local halo: [kernel] throws before
      anything is injected.
    - Every other call (the particle is not skipped, and the coupling is not
      thermalized, or it is seeded, or no image lies in the local halo): the
      coupling force is computed, and it is injected by [add_md_force] once
      for every periodic image of the particle's position that lies in the
      local halo (the local domain widened by half a lattice spacing), in the
      order of the images and at no other position; the particle's own force
      receives the coupling force once for every image that lies in the local
      domain.  The only later injection is the swimmer's own force. *)
Theorem kernel_injects_at_halo_images {D : Type} `{DoubleOps D}
    (pc : ParticleCoupling D) (g : Globals D) (p : Particle D) (fluid : ForceDensity D) :
  let images :=
    filter (in_local_halo g) (map (image_of g (pos p) (box_geo g)) shift_triples) in
  (is_virtual p && negb (m_couple_virtual pc) = true ->
   kernel pc g p fluid = (Normal, p, fluid))
  /\ (is_virtual p && negb (m_couple_virtual pc) = false ->
      m_thermalized pc = true ->
      rng_counter_coupling (lb_particle_coupling g) = None ->
      images <> [] ->
      kernel pc g p fluid = (Thrown uninitialized_rng, p, fluid))
  /\ (is_virtual p && negb (m_couple_virtual pc) = false ->
      m_thermalized pc = false
        \/ rng_counter_coupling (lb_particle_coupling g) <> None
        \/ images = [] ->
      exists coupling_force : Vector3d D,
        calc_coupling_force pc g p images = Ok coupling_force
        /\ kernel pc g p fluid
           = (Normal,
              Nat.iter (List.length (filter (fun pos => in_local_domain g pos dzero) images))
                (fun q => add_force q coupling_force) p,
              (fluid ++ map (fun pos =>
                               (pos, smul (dopp (ddiv (m_time_step pc)
                                                   (get_lattice_speed (lb g))))
                                       coupling_force))
                          images)
              ++ (if ENGINE g then add_swimmer_force g p (m_time_step pc) [] else []))).
Proof.
  cbv zeta. rewrite <- positions_in_halo_filter. split; [|split].
  - intros Hskip. unfold kernel. now rewrite Hskip.
  - intros Hskip Hth Hseed Himages. unfold kernel. rewrite Hskip.
    rewrite calc_coupling_force_images.
    destruct (positions_in_halo g (pos p) (box_geo g)) as [|pos0 rest]; [congruence|].
    unfold get_noise_term. now rewrite Hth, Hseed.
  - intros Hskip Hrng.
    assert (Hforce : exists coupling_force,
               calc_coupling_force pc g p (positions_in_halo g (pos p) (box_geo g))
               = Ok coupling_force).
    { destruct Hrng as [Hcold | [Hseed | Hnone]].
      - apply calc_coupling_force_returns. now left.
      - apply calc_coupling_force_returns. now right.
      - rewrite Hnone. now eexists. }
    destruct Hforce as [coupling_force Hforce].
    exists coupling_force. split; [exact Hforce|].
    now apply kernel_unfold.
Qed.

(** The three cases in the unit-test box: the virtual particle at x = 0.25
    is skipped; on a warm coupling without seed the particle at x = 0.25
    makes [kernel] throw; on a cold coupling the coupling force is injected
    at both of its images in the halo. *)
Lemma kernel_injects_at_halo_images_witness :
  kernel Scenario.cold_coupling (UnitTest.globals dzero None) Edge.virtual_particle []
  = (Normal, Edge.virtual_particle, [])
  /\ kernel Scenario.warm_coupling (UnitTest.globals Scenario.warm None) Scenario.owner []
     = (Thrown uninitialized_rng, Scenario.owner, [])
  /\ let g := UnitTest.globals dzero None in
     let images :=
       filter (in_local_halo g)
         (map (image_of g (pos Scenario.owner) (box_geo g)) shift_triples) in
     exists coupling_force : Vector3d double,
       calc_coupling_force Scenario.cold_coupling g Scenario.owner images = Ok coupling_force
       /\ kernel Scenario.cold_coupling g Scenario.owner []
          = (Normal,
             Nat.iter (List.length (filter (fun pos => in_local_domain g pos dzero) images))
               (fun q => add_force q coupling_force) Scenario.owner,
             ([] ++ map (fun pos =>
                           (pos, smul (dopp (ddiv (m_time_step Scenario.cold_coupling)
                                               (get_lattice_speed (lb g))))
                                   coupling_force))
                      images)
             ++ (if ENGINE g
                 then add_swimmer_force g Scenario.owner
                        (m_time_step Scenario.cold_coupling) []
                 else [])).
Proof.
  split; [|split].
  - refine (proj1 (@kernel_injects_at_halo_images double binary64 Scenario.cold_coupling
                     (UnitTest.globals dzero None) Edge.virtual_particle []) _).
    reflexivity.
  - refine (proj1 (proj2 (@kernel_injects_at_halo_images double binary64
                            Scenario.warm_coupling (UnitTest.globals Scenario.warm None)
                            Scenario.owner [])) _ _ _ _).
    + reflexivity.
    + vm_compute; reflexivity.
    + reflexivity.
    + vm_compute; discriminate.
  - refine (proj2 (proj2 (@kernel_injects_at_halo_images double binary64
                            Scenario.cold_coupling (UnitTest.globals dzero None)
                            Scenario.owner [])) _ _).
    + reflexivity.
    + left. vm_compute. reflexivity.
Defined.

(** C2 as stated fails for a particle at x = 0.25 in the unit-test box: its
    image at x = 8.25 is in the local halo but not in the local domain, and
    the coupling force is injected there as well. *)
Lemma kernel_injects_outside_local_domain :
  let g := UnitTest.globals dzero None in
  let coupling_force := mkVec (dopp (literal 2 10)) dzero dzero in
  let delta_j :=
    smul (dopp (ddiv UnitTest.time_step (get_lattice_speed (lb g)))) coupling_force in
  kernel Scenario.cold_coupling g Scenario.owner []
  = (Normal, add_force Scenario.owner coupling_force,
     [(pos Scenario.owner, delta_j); (pos Scenario.replica, delta_j)])
  /\ in_local_domain g (pos Scenario.replica) dzero = false
  /\ in_local_halo g (pos Scenario.replica) = true.
Proof.
  cbv zeta. repeat split; vm_compute; reflexivity.
Qed.

(** ** Single counting over the ranks (C1) *)

Lemma should_be_coupled_returns {D : Type} `{DoubleOps D} (g : Globals D) (p : Particle D) :
  (is_ghost p = true -> get_local_particle (cell_structure g) (id p) <> None) ->
  exists admitted : bool, should_be_coupled g p = Ok admitted.
Proof.
  intros Hlocal. unfold should_be_coupled, is_ghost_for_local_particle.
  destruct (is_ghost p); [|now eexists].
  destruct (get_local_particle (cell_structure g) (id p)); cbn; [now eexists|].
  now destruct Hlocal.
Qed.

(** One pass over a range: it completes, and every particle of the range
    leaves it as [coupled_particle] says. *)
Lemma couple_range_completes {D : Type} `{DoubleOps D}
    (g : Globals D) (couple_virtual : bool) (time_step : D)
    (range : list (Particle D)) (fluid : ForceDensity D) :
  dgtb (get_kT (lb g)) dzero = false
    \/ rng_counter_coupling (lb_particle_coupling g) <> None ->
  (forall p, In p range -> is_ghost p = true ->
     get_local_particle (cell_structure g) (id p) <> None) ->
  exists fluid' : ForceDensity D,
    couple_range (ParticleCoupling_init g couple_virtual time_step) g range fluid
    = (Normal, map (coupled_particle g couple_virtual time_step) range, fluid').
Proof.
  intros Hrng. revert fluid.
  induction range as [|p range IH]; intros fluid Hlocal; cbn [couple_range map].
  - now eexists.
  - assert (Hrest : forall q, In q range -> is_ghost q = true ->
              get_local_particle (cell_structure g) (id q) <> None)
      by (intros q Hq; apply Hlocal; now right).
    destruct (should_be_coupled_returns g p (Hlocal p (or_introl eq_refl)))
      as [admitted Hadm].
    destruct (calc_coupling_force_returns
                (ParticleCoupling_init g couple_virtual time_step) g p
                (positions_in_halo g (pos p) (box_geo g)) Hrng)
      as [coupling_force Hforce].
    unfold coupled_particle at 1, coupling_force_of, force_additions, is_coupled.
    rewrite Hadm, Hforce.
    destruct admitted.
    + destruct (is_virtual p && negb couple_virtual) eqn:Hskip.
      * unfold kernel. cbn [m_couple_virtual ParticleCoupling_init]. rewrite Hskip.
        destruct (IH fluid Hrest) as [fluid' ->]. now eexists.
      * rewrite (kernel_unfold (ParticleCoupling_init g couple_virtual time_step) g p
                   fluid Hskip Hforce).
        match goal with
        | |- context [couple_range _ _ _ ?f] => destruct (IH f Hrest) as [fluid' ->]
        end.
        now eexists.
    + destruct (IH fluid Hrest) as [fluid' ->]. now eexists.
Qed.

Lemma couple_rank_completes {D : Type} `{DoubleOps D}
    (couple_virtual : bool) (time_step : D) (r : Rank D) :
  lattice_switch (node r) = WALBERLA_LB ->
  couple_to_md (lb_particle_coupling (node r)) = true ->
  dgtb (get_kT (lb (node r))) dzero = false
    \/ rng_counter_coupling (lb_particle_coupling (node r)) <> None ->
  (forall p, In p (real_particles r ++ ghost_particles r) -> is_ghost p = true ->
     get_local_particle (cell_structure (node r)) (id p) <> None) ->
  exists fluid' : ForceDensity D,
    couple_rank couple_virtual time_step r
    = (Normal,
       (map (coupled_particle (node r) couple_virtual time_step) (real_particles r),
        map (coupled_particle (node r) couple_virtual time_step) (ghost_particles r)),
       fluid').
Proof.
  intros Hlb Hmd Hrng Hlocal. unfold couple_rank, couple_particles.
  rewrite Hlb, Hmd; cbn [ActiveLB_eqb].
  destruct (couple_range_completes (node r) couple_virtual time_step
              (real_particles r) [] Hrng) as [fluid1 ->].
  { intros p Hp. apply Hlocal, in_or_app. now left. }
  destruct (couple_range_completes (node r) couple_virtual time_step
              (ghost_particles r) fluid1 Hrng) as [fluid2 ->].
  { intros p Hp. apply Hlocal, in_or_app. now right. }
  now eexists.
Qed.

Lemma list_sum_zero {A : Type} (count : A -> nat) (l : list A) :
  list_sum (map count l) = 0%nat -> forall y, In y l -> count y = 0%nat.
Proof.
  induction l as [|a l IH]; [easy|].
  change (list_sum (map count (a :: l))) with (count a + list_sum (map count l))%nat.
  intros Hsum y [<- | Hy]; [lia|apply IH; [lia|exact Hy]].
Qed.

(** A list of counts that sums to one has one entry 1 and zeros elsewhere. *)
Lemma list_sum_one {A : Type} (count : A -> nat) (l : list A) :
  list_sum (map count l) = 1%nat ->
  exists before x after,
    l = before ++ x :: after
    /\ count x = 1%nat
    /\ forall y, In y (before ++ after) -> count y = 0%nat.
Proof.
  induction l as [|a l IH]; [discriminate|].
  change (list_sum (map count (a :: l))) with (count a + list_sum (map count l))%nat.
  intros Hsum. destruct (count a) as [|n] eqn:Ha.
  - destruct (IH Hsum) as (before & x & after & -> & Hx & Hothers).
    exists (a :: before), x, after. repeat split; [exact Hx|].
    intros y [<- | Hy]; [exact Ha|now apply Hothers].
  - exists [], a, l. split; [reflexivity|]. split; [lia|].
    cbn [app]. apply list_sum_zero. lia.
Qed.

(** A ghost whose identity the node owns as a real particle is not coupled. *)
Lemma ghost_of_owned_particle_not_coupled {D : Type} `{DoubleOps D}
    (g : Globals D) (couple_virtual : bool) (time_step : D) (p local : Particle D) :
  is_ghost p = true ->
  get_local_particle (cell_structure g) (id p) = Some local ->
  is_ghost local = false ->
  force_additions g couple_virtual p = 0%nat
  /\ coupled_particle g couple_virtual time_step p = p.
Proof.
  intros Hghost Hlocal Hreal.
  assert (Hzero : force_additions g couple_virtual p = 0%nat).
  { unfold force_additions, is_coupled, should_be_coupled, is_ghost_for_local_particle.
    now rewrite Hghost, Hlocal, Hreal. }
  split; [exact Hzero|].
  unfold coupled_particle. rewrite Hzero.
  now destruct (coupling_force_of g couple_virtual time_step p).
Qed.

(** What one pass does to one stored particle: the coupling force is the
    drag at the first image in the local halo plus the noise term, and it is
    added once for every image in the local domain, unless the particle is
    skipped as virtual or is a ghost of a particle the node owns as real. *)
Lemma coupled_particle_cases {D : Type} `{DoubleOps D}
    (g : Globals D) (couple_virtual : bool) (time_step : D) (p : Particle D) :
  dgtb (get_kT (lb g)) dzero = false
    \/ rng_counter_coupling (lb_particle_coupling g) <> None ->
  exists coupling_force : Vector3d D,
    coupling_force_of g couple_virtual time_step p = Ok coupling_force
    /\ match positions_in_halo g (pos p) (box_geo g) with
       | [] => coupling_force = vzero
       | image :: _ =>
           exists random_force : Vector3d D,
             get_noise_term (ParticleCoupling_init g couple_virtual time_step) g (id p)
             = Ok random_force
             /\ coupling_force
                = vadd (lb_drag_force g p image (lb_particle_coupling_drift_vel_offset g p))
                    random_force
       end
    /\ (is_virtual p && negb couple_virtual = true ->
        coupled_particle g couple_virtual time_step p = p)
    /\ (forall local : Particle D,
          is_ghost p = true ->
          get_local_particle (cell_structure g) (id p) = Some local ->
          is_ghost local = false ->
          coupled_particle g couple_virtual time_step p = p)
    /\ (is_virtual p && negb couple_virtual = false ->
        is_ghost p = false
          \/ (exists local : Particle D,
                get_local_particle (cell_structure g) (id p) = Some local
                /\ is_ghost local = true) ->
        coupled_particle g couple_virtual time_step p
        = Nat.iter (List.length (images_in_local_domain g p))
            (fun q => add_force q coupling_force) p).
Proof.
  intros Hrng.
  destruct (calc_coupling_force_returns
              (ParticleCoupling_init g couple_virtual time_step) g p
              (positions_in_halo g (pos p) (box_geo g)) Hrng)
    as [coupling_force Hforce].
  exists coupling_force. split; [exact Hforce|]. split.
  - pose proof Hforce as Himages. rewrite calc_coupling_force_images in Himages.
    revert Himages.
    destruct (positions_in_halo g (pos p) (box_geo g)) as [|image rest]; intros Himages.
    + now inversion Himages.
    + destruct (get_noise_term_returns
                  (ParticleCoupling_init g couple_virtual time_step) g (id p) Hrng)
        as [random_force Hnoise].
      rewrite Hnoise in Himages. cbn in Himages.
      exists random_force. split; [exact Hnoise|]. now inversion Himages.
  - unfold coupled_particle, coupling_force_of. rewrite Hforce.
    unfold force_additions, is_coupled. split; [|split].
    + intros Hskip. rewrite Hskip.
      now destruct (should_be_coupled g p) as [[|]| |].
    + intros local Hghost Hlocal Hreal.
      unfold should_be_coupled, is_ghost_for_local_particle.
      now rewrite Hghost, Hlocal, Hreal.
    + intros Hskip Hadmitted. rewrite Hskip.
      unfold should_be_coupled, is_ghost_for_local_particle.
      destruct Hadmitted as [Hreal | (local & Hlocal & Hghost)].
      * now rewrite Hreal.
      * rewrite Hlocal, Hghost. now destruct (is_ghost p).
Qed.




(** A real particle that has drifted to x = -2^-60 on the only rank: its
    image one box length up rounds to x = 8, the excluded upper boundary, so
    no image is in the local domain.  The fluid receives the coupling force
    at both images in the halo; the particle receives nothing. *)
Lemma drifted_particle_receives_no_force :
  let g := UnitTest.globals dzero None in
  let coupling_force := mkVec (dopp (literal 2 10)) dzero dzero in
  let delta_j :=
    smul (dopp (ddiv UnitTest.time_step (get_lattice_speed (lb g)))) coupling_force in
  positions_in_halo g (pos Edge.drifted) (box_geo g)
  = [pos Edge.drifted; mkVec (double_of_Z 8) (double_of_Z 1) (double_of_Z 1)]
  /\ images_in_local_domain g Edge.drifted = []
  /\ couple_particles g false [Edge.drifted] [] UnitTest.time_step []
     = (Normal, ([Edge.drifted], []),
        [(pos Edge.drifted, delta_j);
         (mkVec (double_of_Z 8) (double_of_Z 1) (double_of_Z 1), delta_j)]).
Proof.
  cbv zeta. repeat split; vm_compute; reflexivity.
Qed.

(** ** What the noise term depends on *)

(** Two calls of [get_noise_term] agree when the thermalization flag, the
    noise amplitude, the RNG counter, the generator and the particle id
    agree, whatever else differs between the two states. *)
Lemma get_noise_term_deterministic {D : Type} `{DoubleOps D}
    (pc1 pc2 : ParticleCoupling D) (g1 g2 : Globals D) (pid : Z) :
  m_thermalized pc1 = m_thermalized pc2 ->
  m_noise pc1 = m_noise pc2 ->
  rng_counter_coupling (lb_particle_coupling g1)
  = rng_counter_coupling (lb_particle_coupling g2) ->
  noise_uniform g1 = noise_uniform g2 ->
  get_noise_term pc1 g1 pid = get_noise_term pc2 g2 pid.
Proof.
  intros Hth Hamp Hctr Hgen. unfold get_noise_term.
  now rewrite Hth, Hamp, Hctr, Hgen.
Qed.

(** * Further properties of the coupling code *)

(** ** The RNG counter as a state machine *)

(** X1. With the lattice method active, [set_rng_state] followed by
    [get_rng_state] returns the counter that was set (reduced to 64 bits),
    the seed is no longer required, and gamma, the coupling switch and the
    lattice switch are as before. *)
Theorem rng_state_round_trip {D : Type} `{DoubleOps D} (g : Globals D) (counter : Z) :
  lattice_switch g = WALBERLA_LB ->
  0 <= counter < uint64_modulus ->
  exists g' : Globals D,
    lb_lbcoupling_set_rng_state g counter = Ok g'
    /\ lb_lbcoupling_get_rng_state g' = Ok counter
    /\ lb_lbcoupling_is_seed_required g' = false
    /\ lb_lbcoupling_get_gamma g' = lb_lbcoupling_get_gamma g
    /\ couple_to_md (lb_particle_coupling g') = couple_to_md (lb_particle_coupling g)
    /\ lattice_switch g' = lattice_switch g.
Proof.
  intros Hlb Hrange. unfold lb_lbcoupling_set_rng_state. rewrite Hlb; cbn.
  eexists; split; [reflexivity|].
  unfold lb_lbcoupling_get_rng_state, lb_coupling_get_rng_state_cpu,
    lb_lbcoupling_is_seed_required; cbn. rewrite Hlb; cbn.
  rewrite to_uint64_small by exact Hrange. repeat split.
Qed.

Lemma rng_state_round_trip_witness :
  exists g' : Globals double,
    lb_lbcoupling_set_rng_state (UnitTest.globals dzero None) 17 = Ok g'
    /\ lb_lbcoupling_get_rng_state g' = Ok 17
    /\ lb_lbcoupling_is_seed_required g' = false
    /\ lb_lbcoupling_get_gamma g' = lb_lbcoupling_get_gamma (UnitTest.globals dzero None)
    /\ couple_to_md (lb_particle_coupling g')
       = couple_to_md (lb_particle_coupling (UnitTest.globals dzero None))
    /\ lattice_switch g' = lattice_switch (UnitTest.globals dzero None).
Proof.
  apply (@rng_state_round_trip double binary64 (UnitTest.globals dzero None) 17).
  - reflexivity.
  - vm_compute. split; [discriminate|reflexivity].
Defined.

(** X2. With no lattice method active, setting and reading the RNG state both
    fail with "No LB active", a seed is not required, [propagate] leaves the
    state as it is, and [couple_particles] touches neither the particles nor
    the fluid, whatever the counter and the temperature are. *)
Theorem no_lb_active {D : Type} `{DoubleOps D} (g : Globals D) (counter : Z)
    (couple_virtual : bool) (reals ghosts : list (Particle D)) (time_step : D)
    (fluid : ForceDensity D) :
  lattice_switch g = NONE ->
  lb_lbcoupling_set_rng_state g counter = Throw (runtime_error "No LB active")
  /\ lb_lbcoupling_get_rng_state g = Throw (runtime_error "No LB active")
  /\ lb_lbcoupling_is_seed_required g = false
  /\ lb_lbcoupling_propagate g = Ok g
  /\ couple_particles g couple_virtual reals ghosts time_step fluid
     = (Normal, (reals, ghosts), fluid).
Proof.
  intros Hoff.
  unfold lb_lbcoupling_set_rng_state, lb_lbcoupling_get_rng_state,
    lb_lbcoupling_is_seed_required, lb_lbcoupling_propagate, couple_particles.
  rewrite Hoff; cbn. repeat split.
Qed.

Lemma no_lb_active_witness :
  lb_lbcoupling_set_rng_state Warm.inactive_node 18 = Throw (runtime_error "No LB active")
  /\ lb_lbcoupling_get_rng_state Warm.inactive_node = Throw (runtime_error "No LB active")
  /\ lb_lbcoupling_is_seed_required Warm.inactive_node = false
  /\ lb_lbcoupling_propagate Warm.inactive_node = Ok Warm.inactive_node
  /\ couple_particles Warm.inactive_node true [Scenario.owner] [Scenario.replica]
       UnitTest.time_step []
     = (Normal, ([Scenario.owner], [Scenario.replica]), []).
Proof.
  exact (@no_lb_active double binary64 Warm.inactive_node 18 true [Scenario.owner]
           [Scenario.replica] UnitTest.time_step [] eq_refl).
Defined.

Lemma to_uint64_add_l (a b : Z) : to_uint64 (to_uint64 a + b) = to_uint64 (a + b).
Proof. unfold to_uint64. apply Zplus_mod_idemp_l. Qed.

Lemma propagate_steps_seeded {D : Type} `{DoubleOps D} (n : nat) (g : Globals D) (c : Counter) :
  rng_counter_coupling (lb_particle_coupling g) = Some c ->
  lattice_switch g <> NONE ->
  dgtb (get_kT (lb g)) dzero = true ->
  exists c' : Counter,
    propagate_steps n g = Ok (set_rng_counter_coupling g (Some c'))
    /\ to_uint64 (value c') = to_uint64 (value c + Z.of_nat n)
    /\ (n <> O -> value c' = to_uint64 (value c + Z.of_nat n)).
Proof.
  revert g c. induction n as [|n IH]; intros g c Hseed Hact Hwarm.
  - exists c. cbn [propagate_steps]. split.
    + destruct g as [ls [ga md rng] lg bg cs fl nu na en eh]; cbn in *;
        subst; reflexivity.
    + rewrite Z.add_0_r. split; [reflexivity|congruence].
  - cbn [propagate_steps].
    rewrite (lb_lbcoupling_propagate_seeded g Hseed Hact Hwarm); cbn [bind].
    destruct (IH (set_rng_counter_coupling g (Some (increment c))) (increment c))
      as (c' & Hrun & Hval & Hpos); [reflexivity|exact Hact|exact Hwarm|].
    exists c'. split; [exact Hrun|].
    assert (Hsum : to_uint64 (value (increment c) + Z.of_nat n)
                   = to_uint64 (value c + Z.of_nat (S n))).
    { unfold increment, value; cbn [m_val]. rewrite to_uint64_add_l. f_equal. lia. }
    split; [now rewrite Hval|].
    intros _. destruct n as [|n].
    + cbn [propagate_steps] in Hrun. injection Hrun as Hrun.
      assert (Hc : Some c' = Some (increment c)).
      { change (rng_counter_coupling
                  (lb_particle_coupling (set_rng_counter_coupling
                     (set_rng_counter_coupling g (Some (increment c))) (Some c')))
                = Some (increment c)).
        now rewrite <- Hrun. }
      injection Hc as ->. unfold increment, value; cbn [m_val]. f_equal; lia.
    + rewrite Hpos by discriminate. exact Hsum.
Qed.

(** X3. On a seeded coupling with the lattice method active and [kT > 0], [n]
    integration steps advance the RNG counter by [n] modulo 2^64 and change
    nothing else: gamma, the coupling switch, the lattice switch and the
    geometry stay, and a seed is still not required. *)
Theorem propagate_steps_counter {D : Type} `{DoubleOps D} (n : nat) (g : Globals D)
    (c : Counter) :
  rng_counter_coupling (lb_particle_coupling g) = Some c ->
  0 <= value c < uint64_modulus ->
  lattice_switch g <> NONE ->
  dgtb (get_kT (lb g)) dzero = true ->
  exists g' : Globals D,
    propagate_steps n g = Ok g'
    /\ lb_lbcoupling_get_rng_state g' = Ok ((value c + Z.of_nat n) mod 2 ^ 64)
    /\ lb_lbcoupling_is_seed_required g' = false
    /\ lb_lbcoupling_get_gamma g' = lb_lbcoupling_get_gamma g
    /\ couple_to_md (lb_particle_coupling g') = couple_to_md (lb_particle_coupling g)
    /\ lattice_switch g' = lattice_switch g
    /\ local_geo g' = local_geo g /\ box_geo g' = box_geo g /\ lb g' = lb g.
Proof.
  intros Hseed Hrange Hact Hwarm.
  destruct (propagate_steps_seeded n g Hseed Hact Hwarm) as (c' & Hrun & Hval & Hpos).
  assert (Hlb : lattice_switch g = WALBERLA_LB) by (destruct (lattice_switch g); congruence).
  exists (set_rng_counter_coupling g (Some c')). split; [exact Hrun|].
  unfold lb_lbcoupling_get_rng_state, lb_coupling_get_rng_state_cpu,
    lb_lbcoupling_is_seed_required; cbn. rewrite Hlb; cbn.
  repeat split. f_equal.
  destruct n as [|n].
  - cbn [propagate_steps] in Hrun. injection Hrun as Hrun.
    assert (Hc : Some c = Some c').
    { rewrite <- Hseed. rewrite Hrun at 1. reflexivity. }
    injection Hc as <-. rewrite Z.add_0_r.
    symmetry. apply Z.mod_small. exact Hrange.
  - apply Hpos. discriminate.
Qed.

Lemma propagate_steps_counter_witness :
  exists g' : Globals double,
    propagate_steps 3 Scenario.seeded_max = Ok g'
    /\ lb_lbcoupling_get_rng_state g' = Ok 2.
Proof.
  destruct (@propagate_steps_counter double binary64 3 Scenario.seeded_max
              (Counter_init (uint64_modulus - 1)))
    as (g' & Hrun & Hstate & _).
  - reflexivity.
  - vm_compute. split; [discriminate|reflexivity].
  - discriminate.
  - vm_compute. reflexivity.
  - exists g'. split; [exact Hrun|]. rewrite Hstate. vm_compute. reflexivity.
Defined.

(** X5. [is_seed_required] tells when the RNG counter may be used.  When it
    answers false, [get_rng_state] returns the counter or fails with "No LB
    active", and [propagate] returns; when it answers true, [get_rng_state]
    dereferences the empty optional, and so does [propagate] as soon as
    [kT > 0]. *)
Theorem seed_required_guards_counter {D : Type} `{DoubleOps D} (g : Globals D) :
  (lb_lbcoupling_is_seed_required g = false ->
   (lb_lbcoupling_get_rng_state g = Throw (runtime_error "No LB active")
    \/ exists c, lb_lbcoupling_get_rng_state g = Ok c)
   /\ exists g', lb_lbcoupling_propagate g = Ok g')
  /\ (lb_lbcoupling_is_seed_required g = true ->
      lb_lbcoupling_get_rng_state g = Undefined
      /\ (dgtb (get_kT (lb g)) dzero = true -> lb_lbcoupling_propagate g = Undefined)
      /\ (dgtb (get_kT (lb g)) dzero = false -> lb_lbcoupling_propagate g = Ok g)).
Proof.
  unfold lb_lbcoupling_is_seed_required, lb_lbcoupling_get_rng_state,
    lb_coupling_get_rng_state_cpu, lb_lbcoupling_propagate.
  destruct (lattice_switch g); cbn.
  - split; [|discriminate]. intros _. split; [now left|now eexists].
  - destruct (rng_counter_coupling (lb_particle_coupling g)) as [c|].
    + split; [|discriminate]. intros _. split; [right; now eexists|].
      destruct (dgtb (get_kT (lb g)) dzero); now eexists.
    + split; [discriminate|]. intros _. split; [reflexivity|].
      split; intros ->; reflexivity.
Qed.

(** ** Switching the coupling on and off *)

(** X4. After [deactivate], a coupling pass touches neither the particles
    nor the fluid, on every node and for every particle set; the call warns
    exactly when a lattice method is active, the caller is node 0 and gamma
    is positive; the RNG state is not touched, and a later [activate]
    restores the state that [activate] alone would give. *)
Theorem deactivate_stops_coupling {D : Type} `{DoubleOps D} (this_node : Z)
    (g : Globals D) (couple_virtual : bool) (reals ghosts : list (Particle D))
    (time_step : D) (fluid : ForceDensity D) :
  let g' := fst (lb_lbcoupling_deactivate this_node g) in
  let warnings := snd (lb_lbcoupling_deactivate this_node g) in
  couple_particles g' couple_virtual reals ghosts time_step fluid
  = (Normal, (reals, ghosts), fluid)
  /\ (warnings = [deactivate_warning] \/ warnings = [])
  /\ (warnings = [deactivate_warning] <->
      lattice_switch g <> NONE /\ this_node = 0
      /\ dgtb (lb_lbcoupling_get_gamma g) dzero = true)
  /\ lb_lbcoupling_get_rng_state g' = lb_lbcoupling_get_rng_state g
  /\ lb_lbcoupling_is_seed_required g' = lb_lbcoupling_is_seed_required g
  /\ lb_lbcoupling_activate g' = lb_lbcoupling_activate g.
Proof.
  cbv zeta. unfold lb_lbcoupling_deactivate; cbn [fst snd]. split.
  - unfold couple_particles; cbn.
    now destruct (ActiveLB_eqb (lattice_switch g) WALBERLA_LB).
  - unfold lb_lbcoupling_get_gamma.
    destruct (lattice_switch g); cbn [ActiveLB_eqb negb andb].
    + split; [now right|]. split; [|repeat split].
      split; [discriminate|]. intros [Hne _]. now destruct Hne.
    + destruct (Z.eqb_spec this_node 0) as [-> | Hnode]; cbn [andb].
      * destruct (dgtb (gamma (lb_particle_coupling g)) dzero).
        -- split; [now left|]. split; [|repeat split].
           split; [intros _; repeat split; discriminate|reflexivity].
        -- split; [now right|]. split; [|repeat split].
           split; [discriminate|]. intros (_ & _ & Hf). discriminate.
      * split; [now right|]. split; [|repeat split].
        split; [discriminate|]. intros (_ & Hz & _). contradiction.
Qed.

(** ** What a coupling pass can and cannot do *)

Lemma positions_in_halo_all_in_halo {D : Type} `{DoubleOps D}
    (g : Globals D) (pos : Vector3d D) (box : BoxGeometry D) :
  Forall (fun image => in_local_halo g image = true) (positions_in_halo g pos box).
Proof.
  rewrite positions_in_halo_filter. apply Forall_forall. intros image Hin.
  now apply filter_In in Hin.
Qed.

Lemma positions_in_halo_length {D : Type} `{DoubleOps D}
    (g : Globals D) (pos : Vector3d D) (box : BoxGeometry D) :
  (List.length (positions_in_halo g pos box) <= 27)%nat.
Proof.
  rewrite positions_in_halo_filter.
  etransitivity; [apply filter_length_le|]. now rewrite length_map.
Qed.

Lemma same_but_force_refl {D : Type} `{DoubleOps D} (p : Particle D) : same_but_force p p.
Proof. repeat split. Qed.

Lemma same_but_force_all {D : Type} `{DoubleOps D} (l : list (Particle D)) :
  Forall2 same_but_force l l.
Proof. induction l; constructor; auto using same_but_force_refl. Qed.

Lemma same_but_force_iter {D : Type} `{DoubleOps D} (p : Particle D) (f : Vector3d D) (n : nat) :
  same_but_force p (Nat.iter n (fun q => add_force q f) p).
Proof.
  induction n as [|n IH]; [apply same_but_force_refl|].
  rewrite Nat.iter_succ. unfold same_but_force in *; cbn. exact IH.
Qed.

Lemma get_noise_term_cases {D : Type} `{DoubleOps D}
    (pc : ParticleCoupling D) (g : Globals D) (pid : Z) :
  (exists random_force, get_noise_term pc g pid = Ok random_force)
  \/ (get_noise_term pc g pid = Throw uninitialized_rng
      /\ m_thermalized pc = true
      /\ rng_counter_coupling (lb_particle_coupling g) = None).
Proof.
  unfold get_noise_term. destruct (m_thermalized pc); cbn; [|left; now eexists].
  destruct (rng_counter_coupling (lb_particle_coupling g)); [left; now eexists|].
  right. repeat split.
Qed.

Lemma calc_coupling_force_cases {D : Type} `{DoubleOps D}
    (pc : ParticleCoupling D) (g : Globals D) (p : Particle D) (l : list (Vector3d D)) :
  (exists coupling_force, calc_coupling_force pc g p l = Ok coupling_force)
  \/ (calc_coupling_force pc g p l = Throw uninitialized_rng
      /\ m_thermalized pc = true
      /\ rng_counter_coupling (lb_particle_coupling g) = None).
Proof.
  induction l as [|pos l IH]; cbn; [left; now eexists|].
  destruct (in_local_halo g pos); [|exact IH].
  destruct (get_noise_term_cases pc g (id p)) as [[f ->] | (-> & Hth & Hseed)]; cbn.
  - left; now eexists.
  - right. repeat split; assumption.
Qed.

Lemma add_swimmer_force_in_halo {D : Type} `{DoubleOps D}
    (g : Globals D) (p : Particle D) (time_step : D) :
  Forall (fun entry => in_local_halo g (fst entry) = true)
    (add_swimmer_force g p time_step []).
Proof.
  unfold add_swimmer_force. destruct (swimming (swim p)); [|constructor].
  rewrite fold_add_md_force; cbn [app].
  apply Forall_map; cbn [fst]. apply positions_in_halo_all_in_halo.
Qed.

(** The two ways a call of [kernel] ends. *)
Lemma kernel_cases {D : Type} `{DoubleOps D}
    (pc : ParticleCoupling D) (g : Globals D) (p : Particle D) (fluid : ForceDensity D) :
  (exists (n : nat) (coupling_force : Vector3d D) (added : ForceDensity D),
     kernel pc g p fluid
     = (Normal, Nat.iter n (fun q => add_force q coupling_force) p, fluid ++ added)
     /\ (n <= 27)%nat
     /\ Forall (fun entry => in_local_halo g (fst entry) = true) added)
  \/ (kernel pc g p fluid = (Thrown uninitialized_rng, p, fluid)
      /\ m_thermalized pc = true
      /\ rng_counter_coupling (lb_particle_coupling g) = None).
Proof.
  destruct (is_virtual p && negb (m_couple_virtual pc)) eqn:Hskip.
  - left. exists O, vzero, []. unfold kernel. rewrite Hskip, app_nil_r.
    repeat split; [lia|constructor].
  - destruct (calc_coupling_force_cases pc g p (positions_in_halo g (pos p) (box_geo g)))
      as [[coupling_force Hforce] | (Hthrow & Hth & Hseed)].
    + left. rewrite (kernel_unfold pc g p fluid Hskip Hforce), <- app_assoc.
      do 3 eexists. split; [reflexivity|]. split.
      * etransitivity; [apply filter_length_le|apply positions_in_halo_length].
      * apply Forall_app. split.
        -- apply Forall_map; cbn [fst]. apply positions_in_halo_all_in_halo.
        -- destruct (ENGINE g); [apply add_swimmer_force_in_halo|constructor].
    + right. unfold kernel. rewrite Hskip, Hthrow. repeat split; assumption.
Qed.

(** What one pass over a range keeps, whatever its end. *)
Lemma couple_range_invariants {D : Type} `{DoubleOps D}
    (pc : ParticleCoupling D) (g : Globals D) (range : list (Particle D))
    (fluid : ForceDensity D) :
  exists (c : completion) (range' : list (Particle D)) (added : ForceDensity D),
    couple_range pc g range fluid = (c, range', fluid ++ added)
    /\ Forall2 same_but_force range range'
    /\ Forall (fun entry => in_local_halo g (fst entry) = true) added
    /\ (c = Normal
        \/ (c = Thrown uninitialized_rng
            /\ m_thermalized pc = true
            /\ rng_counter_coupling (lb_particle_coupling g) = None)
        \/ (c = UndefinedBehaviour
            /\ exists p, In p range /\ is_ghost p = true
                 /\ get_local_particle (cell_structure g) (id p) = None)).
Proof.
  revert fluid. induction range as [|p range IH]; intros fluid; cbn [couple_range].
  - exists Normal, [], []. rewrite app_nil_r. repeat split; [constructor|constructor|now left].
  - pose proof (same_but_force_all range) as Hkeep.
    unfold should_be_coupled, is_ghost_for_local_particle.
    destruct (is_ghost p) eqn:Hghost; cbn.
    + destruct (get_local_particle (cell_structure g) (id p)) as [local|] eqn:Hlocal; cbn.
      * destruct (is_ghost local); cbn.
        -- destruct (kernel_cases pc g p fluid)
             as [(n & f & added & -> & _ & Hadded) | (-> & Hth & Hseed)].
           ++ destruct (IH (fluid ++ added)) as (c & range' & added' & -> & Hr & Ha & Hc).
              exists c, (Nat.iter n (fun q => add_force q f) p :: range'), (added ++ added').
              rewrite app_assoc. split; [reflexivity|].
              split; [constructor; [apply same_but_force_iter|exact Hr]|].
              split; [now apply Forall_app|].
              destruct Hc as [Hc | [Hc | (Hc & q & Hq & Hrest)]]; auto.
              right; right. split; [exact Hc|]. exists q. split; [now right|exact Hrest].
           ++ exists (Thrown uninitialized_rng), (p :: range), []. rewrite app_nil_r.
              split; [reflexivity|].
              split; [constructor; [apply same_but_force_refl|exact Hkeep]|].
              split; [constructor|]. right; left. repeat split; assumption.
        -- destruct (IH fluid) as (c & range' & added & -> & Hr & Ha & Hc).
           exists c, (p :: range'), added. split; [reflexivity|].
           split; [constructor; [apply same_but_force_refl|exact Hr]|].
           split; [exact Ha|].
           destruct Hc as [Hc | [Hc | (Hc & q & Hq & Hrest)]]; auto.
           right; right. split; [exact Hc|]. exists q. split; [now right|exact Hrest].
      * exists UndefinedBehaviour, (p :: range), []. rewrite app_nil_r.
        split; [reflexivity|].
        split; [constructor; [apply same_but_force_refl|exact Hkeep]|].
        split; [constructor|]. right; right. split; [reflexivity|].
        exists p. repeat split; [now left|assumption|assumption].
    + destruct (kernel_cases pc g p fluid)
        as [(n & f & added & -> & _ & Hadded) | (-> & Hth & Hseed)].
      * destruct (IH (fluid ++ added)) as (c & range' & added' & -> & Hr & Ha & Hc).
        exists c, (Nat.iter n (fun q => add_force q f) p :: range'), (added ++ added').
        rewrite app_assoc. split; [reflexivity|].
        split; [constructor; [apply same_but_force_iter|exact Hr]|].
        split; [now apply Forall_app|].
        destruct Hc as [Hc | [Hc | (Hc & q & Hq & Hrest)]]; auto.
        right; right. split; [exact Hc|]. exists q. split; [now right|exact Hrest].
      * exists (Thrown uninitialized_rng), (p :: range), []. rewrite app_nil_r.
        split; [reflexivity|].
        split; [constructor; [apply same_but_force_refl|exact Hkeep]|].
        split; [constructor|]. right; left. repeat split; assumption.
Qed.

Lemma couple_particles_invariants {D : Type} `{DoubleOps D}
    (g : Globals D) (couple_virtual : bool) (reals ghosts : list (Particle D))
    (time_step : D) (fluid : ForceDensity D) :
  exists (c : completion) (reals' ghosts' : list (Particle D)) (added : ForceDensity D),
    couple_particles g couple_virtual reals ghosts time_step fluid
    = (c, (reals', ghosts'), fluid ++ added)
    /\ Forall2 same_but_force reals reals'
    /\ Forall2 same_but_force ghosts ghosts'
    /\ Forall (fun entry => in_local_halo g (fst entry) = true) added
    /\ (c = Normal
        \/ (c = Thrown uninitialized_rng
            /\ dgtb (get_kT (lb g)) dzero = true
            /\ rng_counter_coupling (lb_particle_coupling g) = None)
        \/ (c = UndefinedBehaviour
            /\ exists p, In p (reals ++ ghosts) /\ is_ghost p = true
                 /\ get_local_particle (cell_structure g) (id p) = None)).
Proof.
  unfold couple_particles.
  assert (Hidle : exists c reals' ghosts' added,
            (Normal, (reals, ghosts), fluid) = (c, (reals', ghosts'), fluid ++ added)
            /\ Forall2 same_but_force reals reals'
            /\ Forall2 same_but_force ghosts ghosts'
            /\ Forall (fun entry => in_local_halo g (fst entry) = true) added
            /\ (c = Normal
                \/ (c = Thrown uninitialized_rng
                    /\ dgtb (get_kT (lb g)) dzero = true
                    /\ rng_counter_coupling (lb_particle_coupling g) = None)
                \/ (c = UndefinedBehaviour
                    /\ exists p, In p (reals ++ ghosts) /\ is_ghost p = true
                         /\ get_local_particle (cell_structure g) (id p) = None))).
  { exists Normal, reals, ghosts, []. rewrite app_nil_r.
    repeat split; auto using same_but_force_all. }
  destruct (ActiveLB_eqb (lattice_switch g) WALBERLA_LB); [|exact Hidle].
  destruct (couple_to_md (lb_particle_coupling g)); [|exact Hidle].
  clear Hidle. cbv zeta.
  set (pc := ParticleCoupling_init g couple_virtual time_step).
  destruct (couple_range_invariants pc g reals fluid)
    as (c1 & reals' & added1 & -> & Hr & Ha1 & Hc1).
  destruct Hc1 as [-> | [(-> & Hth & Hseed) | (-> & p & Hp & Hghost & Hlocal)]].
  - destruct (couple_range_invariants pc g ghosts (fluid ++ added1))
      as (c2 & ghosts' & added2 & -> & Hg & Ha2 & Hc2).
    exists c2, reals', ghosts', (added1 ++ added2). rewrite app_assoc.
    split; [reflexivity|]. split; [exact Hr|]. split; [exact Hg|].
    split; [now apply Forall_app|].
    destruct Hc2 as [Hc | [Hc | (Hc & p & Hp & Hrest)]]; auto.
    right; right. split; [exact Hc|]. exists p. split; [apply in_or_app; now right|exact Hrest].
  - exists (Thrown uninitialized_rng), reals', ghosts, added1.
    split; [reflexivity|]. split; [exact Hr|]. split; [apply same_but_force_all|].
    split; [exact Ha1|]. right; left. repeat split; assumption.
  - exists UndefinedBehaviour, reals', ghosts, added1.
    split; [reflexivity|]. split; [exact Hr|]. split; [apply same_but_force_all|].
    split; [exact Ha1|]. right; right. split; [reflexivity|].
    exists p. split; [apply in_or_app; now left|now split].
Qed.

(** X6. However a coupling pass ends, normally or with an exception, it
    returns the same particles in the same order, and each of them differs
    from what it was at most in its accumulated force: identity, position,
    velocity, the virtual and ghost flags and the swimming parameters are
    never written. *)
Theorem couple_particles_writes_only_forces {D : Type} `{DoubleOps D}
    (g : Globals D) (couple_virtual : bool) (reals ghosts : list (Particle D))
    (time_step : D) (fluid : ForceDensity D) :
  let after := snd (fst (couple_particles g couple_virtual reals ghosts time_step fluid)) in
  Forall2 same_but_force reals (fst after)
  /\ Forall2 same_but_force ghosts (snd after)
  /\ List.length (fst after) = List.length reals
  /\ List.length (snd after) = List.length ghosts.
Proof.
  cbv zeta.
  destruct (couple_particles_invariants g couple_virtual reals ghosts time_step fluid)
    as (c & reals' & ghosts' & added & -> & Hr & Hg & _); cbn [fst snd].
  repeat split; try assumption; symmetry; eapply Forall2_length; eassumption.
Qed.

(** X7. A coupling pass only adds to the force density of the fluid: the
    contributions made before the pass are still there, in order, and every
    position at which the pass injects a force (coupling force or swimmer
    force) lies in the local halo of the node. *)
Theorem couple_particles_injects_in_halo {D : Type} `{DoubleOps D}
    (g : Globals D) (couple_virtual : bool) (reals ghosts : list (Particle D))
    (time_step : D) (fluid : ForceDensity D) :
  exists added : ForceDensity D,
    snd (couple_particles g couple_virtual reals ghosts time_step fluid) = fluid ++ added
    /\ Forall (fun entry => in_local_halo g (fst entry) = true) added.
Proof.
  destruct (couple_particles_invariants g couple_virtual reals ghosts time_step fluid)
    as (c & reals' & ghosts' & added & -> & _ & _ & Ha & _); cbn [fst snd].
  now exists added.
Qed.

(** X8. [positions_in_halo] returns at most 27 positions, and every one of
    them lies in the local halo. *)
Theorem positions_in_halo_bounded {D : Type} `{DoubleOps D}
    (g : Globals D) (pos : Vector3d D) (box : BoxGeometry D) :
  (List.length (positions_in_halo g pos box) <= 27)%nat
  /\ Forall (fun image => in_local_halo g image = true) (positions_in_halo g pos box).
Proof.
  split; [apply positions_in_halo_length|apply positions_in_halo_all_in_halo].
Qed.

Lemma kernel_no_image {D : Type} `{DoubleOps D}
    (pc : ParticleCoupling D) (g : Globals D) (p : Particle D) (fluid : ForceDensity D) :
  positions_in_halo g (pos p) (box_geo g) = [] ->
  kernel pc g p fluid
  = (Normal, p,
     fluid ++ (if is_virtual p && negb (m_couple_virtual pc) then []
               else if ENGINE g then add_swimmer_force g p (m_time_step pc) []
               else [])).
Proof.
  intros Hnone. unfold kernel. rewrite Hnone; cbn.
  destruct (is_virtual p && negb (m_couple_virtual pc)); [now rewrite app_nil_r|].
  destruct (ENGINE g); [|now rewrite app_nil_r].
  now rewrite add_swimmer_force_appends.
Qed.

(** X9. A particle none of whose periodic images lies in the local halo: the
    coupling force is zero and is applied nowhere, the particle is returned
    as it was, and [kernel] ends normally even when the coupling is
    thermalized and the RNG counter was never seeded.  The only force the
    fluid can receive is the swimmer's own force. *)
Theorem kernel_without_image_in_halo {D : Type} `{DoubleOps D}
    (pc : ParticleCoupling D) (g : Globals D) (p : Particle D) (fluid : ForceDensity D) :
  positions_in_halo g (pos p) (box_geo g) = [] ->
  kernel pc g p fluid
  = (Normal, p,
     fluid ++ (if is_virtual p && negb (m_couple_virtual pc) then []
               else if ENGINE g then add_swimmer_force g p (m_time_step pc) []
               else [])).
Proof. apply kernel_no_image. Qed.

Lemma kernel_without_image_in_halo_witness :
  m_thermalized Scenario.warm_coupling = true
  /\ rng_counter_coupling (lb_particle_coupling Warm.unseeded_node) = None
  /\ kernel Scenario.warm_coupling Warm.unseeded_node Warm.swimmer []
     = (Normal, Warm.swimmer,
        [(mkVec (double_of_Z 4) (double_of_Z 1) (double_of_Z 1),
          smul (dopp (ddiv UnitTest.time_step (get_lattice_speed (lb Warm.unseeded_node))))
            (mkVec (double_of_Z 2) dzero dzero))]).
Proof.
  split; [vm_compute; reflexivity|]. split; [reflexivity|].
  rewrite (@kernel_without_image_in_halo double binary64 Scenario.warm_coupling
             Warm.unseeded_node Warm.swimmer []).
  - vm_compute. reflexivity.
  - vm_compute. reflexivity.
Defined.

Lemma kernel_unseeded_keeps_particle {D : Type} `{DoubleOps D}
    (pc : ParticleCoupling D) (g : Globals D) (p : Particle D) (fluid : ForceDensity D) :
  m_thermalized pc = true ->
  rng_counter_coupling (lb_particle_coupling g) = None ->
  snd (fst (kernel pc g p fluid)) = p.
Proof.
  intros Hth Hseed.
  destruct (positions_in_halo g (pos p) (box_geo g)) as [|image rest] eqn:Himages.
  - now rewrite (kernel_no_image pc g p fluid Himages).
  - unfold kernel. destruct (is_virtual p && negb (m_couple_virtual pc)); [reflexivity|].
    rewrite calc_coupling_force_images, Himages.
    unfold get_noise_term. now rewrite Hth, Hseed.
Qed.

Lemma couple_range_unseeded_keeps_particles {D : Type} `{DoubleOps D}
    (pc : ParticleCoupling D) (g : Globals D) (range : list (Particle D))
    (fluid : ForceDensity D) :
  m_thermalized pc = true ->
  rng_counter_coupling (lb_particle_coupling g) = None ->
  snd (fst (couple_range pc g range fluid)) = range.
Proof.
  intros Hth Hseed. revert fluid.
  induction range as [|p range IH]; intros fluid; cbn [couple_range]; [reflexivity|].
  destruct (should_be_coupled g p) as [[|]| |]; cbn [fst snd]; try reflexivity.
  - pose proof (kernel_unseeded_keeps_particle pc g p fluid Hth Hseed) as Hp.
    destruct (kernel pc g p fluid) as [[c p'] fluid']; cbn [fst snd] in Hp; subst p'.
    destruct c; cbn [fst snd]; try reflexivity.
    specialize (IH fluid').
    destruct (couple_range pc g range fluid') as [[c' range'] fluid''].
    cbn [fst snd] in *. now subst.
  - specialize (IH fluid).
    destruct (couple_range pc g range fluid) as [[c' range'] fluid'].
    cbn [fst snd] in *. now subst.
Qed.

(** X10. While the temperature is positive and the RNG counter has not been
    seeded, a coupling pass applies no force to any particle: whether it ends
    normally or with the exception, the real and the ghost particles are
    returned exactly as they were passed in. *)
Theorem couple_particles_unseeded_keeps_particles {D : Type} `{DoubleOps D}
    (g : Globals D) (couple_virtual : bool) (reals ghosts : list (Particle D))
    (time_step : D) (fluid : ForceDensity D) :
  dgtb (get_kT (lb g)) dzero = true ->
  rng_counter_coupling (lb_particle_coupling g) = None ->
  snd (fst (couple_particles g couple_virtual reals ghosts time_step fluid))
  = (reals, ghosts).
Proof.
  intros Hwarm Hseed. unfold couple_particles.
  destruct (ActiveLB_eqb (lattice_switch g) WALBERLA_LB); [|reflexivity].
  destruct (couple_to_md (lb_particle_coupling g)); [|reflexivity].
  cbv zeta. set (pc := ParticleCoupling_init g couple_virtual time_step).
  assert (Hth : m_thermalized pc = true) by exact Hwarm.
  pose proof (couple_range_unseeded_keeps_particles pc g reals fluid Hth Hseed) as Hr.
  destruct (couple_range pc g reals fluid) as [[c reals'] fluid']; cbn [fst snd] in Hr.
  subst reals'.
  pose proof (couple_range_unseeded_keeps_particles pc g ghosts fluid' Hth Hseed) as Hg.
  destruct c; cbn [fst snd]; try reflexivity.
  destruct (couple_range pc g ghosts fluid') as [[c ghosts'] fluid'']; cbn [fst snd] in *.
  now subst.
Qed.

(** A swimmer outside the halo and a particle inside it: the pass injects
    the swimmer's force, then throws at the second particle; no particle has
    changed. *)
Lemma couple_particles_unseeded_keeps_particles_witness :
  couple_particles Warm.unseeded_node false [Warm.swimmer; Scenario.owner] []
    UnitTest.time_step []
  = (Thrown uninitialized_rng, ([Warm.swimmer; Scenario.owner], []),
     [(mkVec (double_of_Z 4) (double_of_Z 1) (double_of_Z 1),
       smul (dopp (ddiv UnitTest.time_step (get_lattice_speed (lb Warm.unseeded_node))))
         (mkVec (double_of_Z 2) dzero dzero))])
  /\ snd (fst (couple_particles Warm.unseeded_node false [Warm.swimmer; Scenario.owner] []
                 UnitTest.time_step []))
     = ([Warm.swimmer; Scenario.owner], []).
Proof.
  split; [vm_compute; reflexivity|].
  apply (@couple_particles_unseeded_keeps_particles double binary64 Warm.unseeded_node
           false [Warm.swimmer; Scenario.owner] [] UnitTest.time_step []).
  - vm_compute. reflexivity.
  - reflexivity.
Defined.

(** X11. A coupling pass whose ghosts all have a local entry ends normally or
    with the exception "Access to uninitialized LB particle coupling RNG
    counter", never with another one; the exception needs a positive
    temperature and an unseeded counter, so with [kT > 0] false or with a
    seeded counter the pass always completes. *)
Theorem couple_particles_completion {D : Type} `{DoubleOps D}
    (g : Globals D) (couple_virtual : bool) (reals ghosts : list (Particle D))
    (time_step : D) (fluid : ForceDensity D) :
  (forall p, In p (reals ++ ghosts) -> is_ghost p = true ->
     get_local_particle (cell_structure g) (id p) <> None) ->
  let c := fst (fst (couple_particles g couple_virtual reals ghosts time_step fluid)) in
  (c = Normal \/ c = Thrown uninitialized_rng)
  /\ (c = Thrown uninitialized_rng ->
      dgtb (get_kT (lb g)) dzero = true
      /\ rng_counter_coupling (lb_particle_coupling g) = None)
  /\ (dgtb (get_kT (lb g)) dzero = false
      \/ rng_counter_coupling (lb_particle_coupling g) <> None ->
      c = Normal).
Proof.
  intros Hlocal; cbv zeta.
  destruct (couple_particles_invariants g couple_virtual reals ghosts time_step fluid)
    as (c & reals' & ghosts' & added & -> & _ & _ & _ & Hc); cbn [fst snd].
  destruct Hc as [-> | [(-> & Hwarm & Hseed) | (-> & p & Hp & Hghost & Hnone)]].
  - split; [now left|]. split; [discriminate|reflexivity].
  - split; [now right|]. split; [now split|].
    intros [Hcold | Hset]; congruence.
  - now destruct (Hlocal p Hp Hghost).
Qed.

Lemma couple_particles_completion_witness :
  fst (fst (couple_particles Warm.seeded_node false [Scenario.owner] [Scenario.replica]
              UnitTest.time_step []))
  = Normal.
Proof.
  refine (proj2 (proj2 (@couple_particles_completion double binary64 Warm.seeded_node
                          false [Scenario.owner] [Scenario.replica] UnitTest.time_step
                          [] _)) _).
  - intros p [<- | [<- | []]] _; discriminate.
  - right. discriminate.
Defined.

Lemma couple_range_virtual {D : Type} `{DoubleOps D}
    (pc : ParticleCoupling D) (g : Globals D) (range : list (Particle D))
    (fluid : ForceDensity D) :
  m_couple_virtual pc = false ->
  (forall p, In p range -> is_virtual p = true) ->
  (forall p, In p range -> is_ghost p = true ->
     get_local_particle (cell_structure g) (id p) <> None) ->
  couple_range pc g range fluid = (Normal, range, fluid).
Proof.
  intros Hcv. induction range as [|p range IH]; intros Hvirtual Hlocal;
    cbn [couple_range]; [reflexivity|].
  assert (Hrest : couple_range pc g range fluid = (Normal, range, fluid)).
  { apply IH; intros q Hq; [apply Hvirtual|apply Hlocal]; now right. }
  destruct (should_be_coupled_returns g p (Hlocal p (or_introl eq_refl))) as [[|] ->].
  - unfold kernel. rewrite Hcv, (Hvirtual p (or_introl eq_refl)); cbn [andb negb].
    now rewrite Hrest.
  - now rewrite Hrest.
Qed.

(** X12. With [couple_virtual] false, a pass over particles that are all
    virtual does nothing at all: it completes, no force is added to a
    particle, nothing is injected into the fluid (not even a swimmer's
    force), and no seed is asked for. *)
Theorem couple_particles_skips_virtual {D : Type} `{DoubleOps D}
    (g : Globals D) (reals ghosts : list (Particle D)) (time_step : D)
    (fluid : ForceDensity D) :
  (forall p, In p (reals ++ ghosts) -> is_virtual p = true) ->
  (forall p, In p (reals ++ ghosts) -> is_ghost p = true ->
     get_local_particle (cell_structure g) (id p) <> None) ->
  couple_particles g false reals ghosts time_step fluid
  = (Normal, (reals, ghosts), fluid).
Proof.
  intros Hvirtual Hlocal. unfold couple_particles.
  destruct (ActiveLB_eqb (lattice_switch g) WALBERLA_LB); [|reflexivity].
  destruct (couple_to_md (lb_particle_coupling g)); [|reflexivity].
  cbv zeta.
  rewrite (couple_range_virtual (ParticleCoupling_init g false time_step) g reals fluid);
    [|reflexivity|intros p Hp; apply Hvirtual, in_or_app; now left
     |intros p Hp; apply Hlocal, in_or_app; now left].
  rewrite (couple_range_virtual (ParticleCoupling_init g false time_step) g ghosts fluid);
    [reflexivity|reflexivity|intros p Hp; apply Hvirtual, in_or_app; now right
     |intros p Hp; apply Hlocal, in_or_app; now right].
Qed.

Lemma couple_particles_skips_virtual_witness :
  couple_particles Warm.unseeded_node false [Edge.virtual_particle] []
    UnitTest.time_step []
  = (Normal, ([Edge.virtual_particle], []), []).
Proof.
  apply (@couple_particles_skips_virtual double binary64 Warm.unseeded_node
           [Edge.virtual_particle] [] UnitTest.time_step []).
  - intros p [<- | []]. reflexivity.
  - intros p [<- | []]. discriminate.
Defined.

(** X13. [positions_in_halo] takes only the edge lengths from its [box]
    argument; the box type and the Lees-Edwards parameters come from the
    global [box_geo].  Two arguments with the same edge lengths give the same
    list, whatever their type. *)
Theorem positions_in_halo_reads_global_box {D : Type} `{DoubleOps D}
    (g : Globals D) (pos : Vector3d D) (box box' : BoxGeometry D) :
  length box = length box' ->
  positions_in_halo g pos box = positions_in_halo g pos box'.
Proof.
  intros Hlen. rewrite !positions_in_halo_filter. f_equal.
  apply map_ext. intros s. unfold image_of, shifted_position. now rewrite Hlen.
Qed.

Lemma positions_in_halo_reads_global_box_witness :
  positions_in_halo (Sheared.sheared_node (double_of_Z 8)) Sheared.position
    UnitTest.cuboid_box
  = positions_in_halo (Sheared.sheared_node (double_of_Z 8)) Sheared.position
      (Sheared.lees_edwards (double_of_Z 8)).
Proof.
  apply (@positions_in_halo_reads_global_box double binary64).
  vm_compute. reflexivity.
Defined.

(** ** Periodic images in double arithmetic *)

Lemma double_of_Z_0 : double_of_Z 0 = S754_zero false.
Proof. reflexivity. Qed.

Lemma depsilon_value : @depsilon double binary64 = S754_finite false 4503599627370496 (-104).
Proof. vm_compute. reflexivity. Qed.

Lemma vget_vzip {S T U : Type} (f : S -> T -> U) (a : Vector3 S) (b : Vector3 T) (i : Axis) :
  vget (vzip f a b) i = f (vget a i) (vget b i).
Proof. now destruct i. Qed.

(** A coordinate moved by zero box lengths and compared with itself: the
    difference is a zero or NaN, whatever the coordinate and the edge. *)
Lemma unshifted_difference (p edge : double) :
  let d := SFsub prec emax (SFadd prec emax p (SFmul prec emax edge (S754_zero false))) p in
  SFltb (S754_finite false 4503599627370496 (-104)) d = false
  /\ SFltb d (SFopp (S754_finite false 4503599627370496 (-104))) = false.
Proof.
  cbv zeta.
  destruct edge as [se|se| |se me ee]; destruct p as [sp|sp| |sp mp ep];
    try destruct se; try destruct sp; cbn [SFmul SFadd SFsub xorb];
    try rewrite Z.sub_diag; cbn [binary_normalize]; split; reflexivity.
Qed.

Lemma unshifted_not_sheared (g : Globals double) (pos : Vector3d double)
    (box : BoxGeometry double) (s : Z * Z * Z) :
  shift_along s (shear_plane_normal (lees_edwards_bc (box_geo g))) = 0 ->
  image_of g pos box s
  = vadd pos (hadamard_product (length box)
                (mkVec (d_of_int (fst (fst s))) (d_of_int (snd (fst s)))
                   (d_of_int (snd s)))).
Proof.
  intros Hzero. unfold image_of, shifted_position.
  destruct (type (box_geo g)); [reflexivity|].
  set (base := vadd pos _).
  assert (Hd : dgtb (vget (vsub base pos)
                       (shear_plane_normal (lees_edwards_bc (box_geo g)))) depsilon = false
               /\ dltb (vget (vsub base pos)
                          (shear_plane_normal (lees_edwards_bc (box_geo g))))
                    (dopp depsilon) = false).
  { unfold dgtb. rewrite depsilon_value.
    unfold vsub, base, vadd, hadamard_product. rewrite !vget_vzip.
    replace (vget (mkVec (d_of_int (fst (fst s))) (d_of_int (snd (fst s)))
                     (d_of_int (snd s)))
               (shear_plane_normal (lees_edwards_bc (box_geo g))))
      with (S754_zero false).
    - apply unshifted_difference.
    - unfold shift_along in Hzero.
      destruct (shear_plane_normal (lees_edwards_bc (box_geo g))); cbn [vget vx vy vz];
        rewrite Hzero; reflexivity. }
  destruct Hd as [-> ->]. reflexivity.
Qed.

(** X14. In double arithmetic the Lees-Edwards correction never touches an
    image that is not shifted along the shear plane normal: for the nine
    shifts whose component along the normal is 0 the image is
    [pos + length * shift], for every position and every box, infinite or
    NaN coordinates included. *)
Theorem lees_edwards_keeps_unshifted_images (g : Globals double) (pos : Vector3d double)
    (box : BoxGeometry double) (s : Z * Z * Z) :
  type (box_geo g) = LEES_EDWARDS ->
  shift_along s (shear_plane_normal (lees_edwards_bc (box_geo g))) = 0 ->
  image_of g pos box s
  = vadd pos (hadamard_product (length box)
                (mkVec (d_of_int (fst (fst s))) (d_of_int (snd (fst s)))
                   (d_of_int (snd s)))).
Proof. intros _. apply unshifted_not_sheared. Qed.

Lemma lees_edwards_keeps_unshifted_images_witness :
  image_of (Sheared.sheared_node (double_of_Z 8)) Sheared.position
    (Sheared.lees_edwards (double_of_Z 8)) (1, 0, -1)
  = mkVec (double_of_Z 9) dzero (double_of_Z (-7)).
Proof.
  rewrite (@lees_edwards_keeps_unshifted_images (Sheared.sheared_node (double_of_Z 8))
             Sheared.position (Sheared.lees_edwards (double_of_Z 8)) (1, 0, -1)).
  - vm_compute. reflexivity.
  - reflexivity.
  - reflexivity.
Defined.

Lemma add_zero_shift (p edge : double) :
  is_finite edge = true -> is_negative_zero p = false ->
  SFadd prec emax p (SFmul prec emax edge (S754_zero false)) = p.
Proof.
  destruct edge as [se|se| |se me ee]; destruct p as [sp|sp| |sp mp ep];
    try destruct se; try destruct sp; cbn; congruence.
Qed.

(** X15. In double arithmetic, for a box with finite edge lengths and a
    position none of whose coordinates is [-0.], the unshifted image is the
    position itself; so a position in the local halo is always among its own
    images, for a cuboid as for a sheared box. *)
Theorem position_in_halo_is_own_image (g : Globals double) (pos : Vector3d double)
    (box : BoxGeometry double) :
  (forall a, is_finite (vget (length box) a) = true) ->
  (forall a, is_negative_zero (vget pos a) = false) ->
  in_local_halo g pos = true ->
  image_of g pos box (0, 0, 0) = pos
  /\ In pos (positions_in_halo g pos box).
Proof.
  intros Hfin Hneg Hhalo.
  assert (Himage : image_of g pos box (0, 0, 0) = pos).
  { rewrite unshifted_not_sheared
      by (destruct (shear_plane_normal (lees_edwards_bc (box_geo g))); reflexivity).
    cbn [fst snd]. unfold vadd, hadamard_product, vzip; cbn [vx vy vz].
    change (@d_of_int double binary64 0) with (S754_zero false).
    change (@dadd double binary64) with (SFadd prec emax).
    change (@dmul double binary64) with (SFmul prec emax).
    pose proof (Hfin AX) as Hx; pose proof (Hfin AY) as Hy; pose proof (Hfin AZ) as Hz.
    pose proof (Hneg AX) as Nx; pose proof (Hneg AY) as Ny; pose proof (Hneg AZ) as Nz.
    cbn [vget] in *.
    rewrite !add_zero_shift by assumption. now destruct pos. }
  split; [exact Himage|].
  rewrite positions_in_halo_filter. apply filter_In. split; [|exact Hhalo].
  rewrite <- Himage at 1. apply in_map.
  unfold shift_triples. do 13 right. now left.
Qed.

Lemma position_in_halo_is_own_image_witness :
  In (pos Scenario.owner)
    (positions_in_halo (UnitTest.globals dzero None) (pos Scenario.owner)
       UnitTest.cuboid_box).
Proof.
  refine (proj2 (@position_in_halo_is_own_image (UnitTest.globals dzero None)
                   (pos Scenario.owner) UnitTest.cuboid_box _ _ _)).
  - intros [| |]; reflexivity.
  - intros [| |]; reflexivity.
  - vm_compute. reflexivity.
Defined.
